(** * CropGuard image preprocessing: a shallow embedding of
    [backend/src/services/ai/preprocessing/image_processor.py]

    The development follows the Python module top to bottom:

    - [FP]: binary floating point as correctly rounded rational arithmetic
      (NumPy's float32 and Python's float64);
    - [Img]: pixels, PIL images, [crop] and [resize];
    - [Colors]: [_correct_colors];
    - [Resize]: [_smart_resize];
    - [Crop]: [_auto_crop_plant];
    - [Proc]: the configuration, the statistics, the pipeline and
      [process_image] in a state-and-exception monad.

    - [Examples]: a small world in which the processor runs.

    Library code that the module only calls (OpenCV filters, PIL resampling
    and enhancers, the decoder and the encoder, the file system and the
    clock) enters through the records [Crop.cv2] and [Proc.env]; what is
    assumed of it is stated where it is used ([Crop.findContours_contract],
    [Proc.size_contract]). Floats are exact rationals rounded after every
    operation; overflow, underflow and NaN are outside the model. Logging
    is left out.

    The second half, from "Properties" on, proves the rounding lemmas and
    the properties of the module. *)

From Stdlib Require Import ZArith QArith Qpower Qround Qminmax Lia Lqa List Ascii
  String Bool Permutation.
Import ListNotations.

Local Open Scope Z_scope.

(* ===================================================================== *)
(** ** Floating point *)
(* ===================================================================== *)

Module FP.

(** Round a rational to the nearest integer, ties to even. *)
Definition round_half_even (q : Q) : Z :=
  let f := Qfloor q in
  match Qcompare (q - inject_Z f) (1 # 2) with
  | Lt => f
  | Gt => f + 1
  | Eq => if Z.even f then f else f + 1
  end.

(** [ilog2 q] is the integer [e] with [2^e <= q < 2^(e+1)], for [0 < q]. *)
Definition ilog2 (q : Q) : Z :=
  let e0 := Z.log2 (Qnum q) - Z.log2 (Zpos (Qden q)) in
  if Qle_bool (Qpower 2 e0) q then e0 else e0 - 1.

(** The exponent of the last place of a positive [q] at [prec] bits. *)
Definition ulp_exp (prec : Z) (q : Q) : Z := ilog2 q - (prec - 1).

(** Correct rounding of a positive rational to [prec] significant bits
    (round to nearest, ties to even; the exponent range is not bounded). *)
Definition rnd_pos (prec : Z) (q : Q) : Q :=
  let e := ulp_exp prec q in
  Qred (inject_Z (round_half_even (q / Qpower 2 e)) * Qpower 2 e).

Definition rnd (prec : Z) (q : Q) : Q :=
  match Qcompare q 0 with
  | Eq => 0%Q
  | Gt => rnd_pos prec q
  | Lt => Qred (- rnd_pos prec (- q))
  end.

(** NumPy's [float32] and Python's [float] (binary64). *)
Definition f32 : Q -> Q := rnd 24.
Definition f64 : Q -> Q := rnd 53.

(** Python's [int(x)] on a float and NumPy's [astype] to an integer type:
    truncation toward zero. *)
Definition trunc (q : Q) : Z :=
  match Qcompare q 0 with
  | Lt => - Qfloor (- q)
  | _ => Qfloor q
  end.

Definition Qlt_bool (a b : Q) : bool := negb (Qle_bool b a).

(** Arithmetic without rounding, for statements about the formulas
    themselves. *)
Definition exact : Q -> Q := fun q => q.

End FP.

(* ===================================================================== *)
(** ** Python exceptions *)
(* ===================================================================== *)

Module Py.

(** The exception classes the module raises or meets; all of them derive
    from [Exception]. *)
Inductive exn_class :=
| FileNotFoundError
| ValueError
| ZeroDivisionError
| OSError
| LibraryError (name : string).

(** An exception instance; [str(e)] is its message. *)
Record exn := mkExn { exn_cls : exn_class; exn_msg : string }.

Definition str (e : exn) : string := exn_msg e.

(** The outcome of a call: a value, or a raised exception. *)
Inductive result (A : Type) :=
| Ok (a : A)
| Raise (e : exn).
Arguments Ok {A} a.
Arguments Raise {A} e.

(** Sequencing: the first exception raised ends the computation. *)
Definition bind {A B} (r : result A) (k : A -> result B) : result B :=
  match r with
  | Ok a => k a
  | Raise e => Raise e
  end.

(** [a / b] on two Python integers: the correctly rounded quotient. *)
Definition int_truediv (a b : Z) : result Q :=
  if b =? 0 then Raise (mkExn ZeroDivisionError "division by zero")
  else Ok (FP.f64 (inject_Z a / inject_Z b)).

(** [n * x] for an integer and a float: the integer is converted first. *)
Definition int_mul_float (n : Z) (x : Q) : Q :=
  FP.f64 (FP.f64 (inject_Z n) * x).

(** [n / x] for an integer and a float. *)
Definition int_div_float (n : Z) (x : Q) : result Q :=
  if Qeq_bool x 0 then
    Raise (mkExn ZeroDivisionError "float division by zero")
  else Ok (FP.f64 (FP.f64 (inject_Z n) / x)).

(** [str.lower()], on the ASCII letters. *)
Definition lower_char (c : Ascii.ascii) : Ascii.ascii :=
  let n := Ascii.nat_of_ascii c in
  if ((65 <=? n) && (n <=? 90))%nat then Ascii.ascii_of_nat (n + 32) else c.

Fixpoint lower (s : string) : string :=
  match s with
  | EmptyString => EmptyString
  | String c s' => String (lower_char c) (lower s')
  end.

(** [s.endswith(suffix)] *)
Definition endswith (s suffix : string) : bool :=
  let ls := String.length s in
  let lf := String.length suffix in
  if (lf <=? ls)%nat then String.eqb (substring (ls - lf) lf s) suffix
  else false.

(** [x in xs] for strings. *)
Definition str_in (x : string) (xs : list string) : bool :=
  existsb (String.eqb x) xs.

End Py.

Declare Scope py_scope.
Delimit Scope py_scope with py.
Notation "x <- e ;; k" := (Py.bind e (fun x => k))
  (at level 61, e at next level, right associativity) : py_scope.
Notation "' p <- e ;; k" := (Py.bind e (fun x => let p := x in k))
  (at level 61, p pattern, e at next level, right associativity) : py_scope.

(* ===================================================================== *)
(** ** Images *)
(* ===================================================================== *)

Module Img.

(** An RGB pixel; every channel is a byte. *)
Record pixel := mkPixel { red : Z; green : Z; blue : Z }.

Definition is_u8 (v : Z) : Prop := 0 <= v <= 255.

Definition pixel_ok (p : pixel) : Prop :=
  is_u8 (red p) /\ is_u8 (green p) /\ is_u8 (blue p).

Definition black : pixel := mkPixel 0 0 0.

(** A PIL image in mode RGB: its [size] and its rows of pixels
    ([np.array(image)] has shape [(height, width, 3)]). *)
Record image := mkImage {
  width : Z;
  height : Z;
  pixels : list (list pixel)
}.

Definition size (im : image) : Z * Z := (width im, height im).

Definition image_ok (im : image) : Prop :=
  Forall (Forall pixel_ok) (pixels im).

(** [getpixel im x y], black outside the stored rows. *)
Definition getpixel (im : image) (x y : Z) : pixel :=
  if (x <? 0) || (y <? 0) then black
  else nth (Z.to_nat x) (nth (Z.to_nat y) (pixels im) []) black.

(** The integers [lo, lo+1, ..., hi-1]. *)
Definition zrange (lo hi : Z) : list Z :=
  map (fun k => lo + Z.of_nat k) (seq 0 (Z.to_nat (hi - lo))).

(** [Image.crop((left, upper, right, lower))]: a new image of size
    [(right - left, lower - upper)]; the part of the box outside the source
    is filled with zeros. PIL refuses a box whose right or lower edge lies
    before its left or upper edge. *)
Definition crop (im : image) (left upper right lower : Z) : Py.result image :=
  if right <? left then
    Py.Raise (Py.mkExn Py.ValueError "Coordinate 'right' is less than 'left'")
  else if lower <? upper then
    Py.Raise (Py.mkExn Py.ValueError "Coordinate 'lower' is less than 'upper'")
  else
    Py.Ok (mkImage (right - left) (lower - upper)
             (map (fun y => map (fun x => getpixel im x y) (zrange left right))
                  (zrange upper lower))).

(** [Image.resize((w, h), resample)]: PIL refuses a size below 1 and
    otherwise returns an image of exactly the requested size; the pixel
    values come from the resampling filter [resample]. *)
Definition resize (resample : image -> Z -> Z -> list (list pixel))
    (im : image) (w h : Z) : Py.result image :=
  if (w <? 1) || (h <? 1) then
    Py.Raise (Py.mkExn Py.ValueError "height and width must be > 0")
  else Py.Ok (mkImage w h (resample im w h)).

End Img.

(* ===================================================================== *)
(** ** [_correct_colors] *)
(* ===================================================================== *)

Module Colors.
Import Img.

Section WithRounding.

(** The rounding of the array's element type: [FP.f32] for the
    [np.float32] array of the source. The scalars derived from the array
    ([np.mean] of a float32 array, and what is computed from it with Python
    floats) are float32 too, as NumPy's promotion rules have it since
    version 2. *)
Variable rn : Q -> Q.

(** [np.array(image, dtype=np.float32) / 255.0], one element. *)
Definition to_unit (v : Z) : Q := rn (inject_Z v / 255).

(** [img_array[:, :, c]], flattened row by row. *)
Definition channel (sel : pixel -> Z) (im : image) : list Q :=
  map (fun p => to_unit (sel p)) (List.concat (pixels im)).

(** [np.mean] over a float array: the sum accumulated in the array's type,
    divided by the number of elements. The empty mean is NaN, for which
    [> 0] is false; it is represented by 0, for which it is false too. *)
Definition np_sum (xs : list Q) : Q :=
  fold_left (fun acc x => rn (acc + x)) xs 0%Q.

Definition np_mean (xs : list Q) : Q :=
  match xs with
  | [] => 0%Q
  | _ => rn (np_sum xs / inject_Z (Z.of_nat (List.length xs)))
  end.

Definition avg_r (im : image) : Q := np_mean (channel red im).
Definition avg_g (im : image) : Q := np_mean (channel green im).
Definition avg_b (im : image) : Q := np_mean (channel blue im).

(** [avg_g / avg_c if avg_c > 0 else 1.0] *)
Definition full_scale (avg_c avg_g : Q) : Q :=
  if FP.Qlt_bool 0 avg_c then rn (avg_g / avg_c) else 1%Q.

Definition correction_strength : Q := rn (3 # 10).

(** [1.0 + (scale - 1.0) * correction_strength] *)
Definition damp (scale : Q) : Q :=
  rn (1 + rn (rn (scale - 1) * correction_strength)).

Definition scale_r (im : image) : Q := damp (full_scale (avg_r im) (avg_g im)).
Definition scale_b (im : image) : Q := damp (full_scale (avg_b im) (avg_g im)).

Definition clip (x lo hi : Q) : Q := Qmin (Qmax x lo) hi.

(** [np.clip(x * 255, 0, 255).astype(np.uint8)], one element. *)
Definition to_u8 (x : Q) : Z := FP.trunc (clip (rn (x * 255)) 0 255).

(** One pixel of the corrected array: channels 0 and 2 are multiplied in
    place, channel 1 is not touched. *)
Definition correct_pixel (sr sb : Q) (p : pixel) : pixel :=
  mkPixel (to_u8 (rn (to_unit (red p) * sr)))
          (to_u8 (to_unit (green p)))
          (to_u8 (rn (to_unit (blue p) * sb))).

Definition correct_colors (im : image) : image :=
  mkImage (width im) (height im)
          (map (map (correct_pixel (scale_r im) (scale_b im))) (pixels im)).

End WithRounding.

(** The mean of a channel of an 8-bit image, as an exact rational. *)
Definition mean_u8 (sel : pixel -> Z) (im : image) : Q :=
  let vs := map sel (List.concat (pixels im)) in
  inject_Z (fold_right Z.add 0 vs) / inject_Z (Z.of_nat (List.length vs)).


End Colors.

(* ===================================================================== *)
(** ** [_smart_resize] *)
(* ===================================================================== *)

Module Resize.
Import Img.
Local Open Scope py_scope.

Section SmartResize.

(** The pixel values computed by PIL's Lanczos filter. *)
Variable lanczos : image -> Z -> Z -> list (list pixel).

(** The size handed to [image.resize]. *)
Definition scaled_size (target : Z * Z) (im : image) : Py.result (Z * Z) :=
  let '(target_width, target_height) := target in
  original_ratio <- Py.int_truediv (width im) (height im) ;;
  target_ratio <- Py.int_truediv target_width target_height ;;
  if FP.Qlt_bool target_ratio original_ratio then
    Py.Ok (FP.trunc (Py.int_mul_float target_height original_ratio), target_height)
  else
    new_height <- Py.int_div_float target_width original_ratio ;;
    Py.Ok (target_width, FP.trunc new_height).

Definition smart_resize (target : Z * Z) (im : image) : Py.result image :=
  let '(target_width, target_height) := target in
  ' (new_width, new_height) <- scaled_size target im ;;
  resized <- resize lanczos im new_width new_height ;;
  if negb (new_width =? target_width) || negb (new_height =? target_height) then
    let left := (new_width - target_width) / 2 in
    let top := (new_height - target_height) / 2 in
    let right := left + target_width in
    let bottom := top + target_height in
    crop resized left top right bottom
  else Py.Ok resized.

End SmartResize.

End Resize.

(* ===================================================================== *)
(** ** [_auto_crop_plant] *)
(* ===================================================================== *)

Module Crop.
Import Img.
Local Open Scope py_scope.

(** Array elements in OpenCV's channel orders. *)
Record bgr := mkBgr { bgr_b : Z; bgr_g : Z; bgr_r : Z }.
Record hsv := mkHsv { hue : Z; sat : Z; val : Z }.

(** A contour is a list of points. *)
Definition contour := list (Z * Z).

(** The OpenCV calls of the subject locator. *)
Record cv2 := mkCv2 {
  cvtColor_BGR2HSV : list (list bgr) -> Py.result (list (list hsv));
  findContours : list (list Z) -> Py.result (list contour);
  contourArea : contour -> Py.result Q;
  boundingRect : contour -> Py.result (Z * Z * Z * Z)
}.

(** [cv2.cvtColor(np.array(image), cv2.COLOR_RGB2BGR)] *)
Definition rgb2bgr (p : pixel) : bgr := mkBgr (blue p) (green p) (red p).

Definition lower_green : hsv := mkHsv 25 40 40.
Definition upper_green : hsv := mkHsv 85 255 255.

(** [cv2.inRange], one element: 255 inside the closed box, 0 outside. *)
Definition inRange (lower upper p : hsv) : Z :=
  if (hue lower <=? hue p) && (hue p <=? hue upper)
     && (sat lower <=? sat p) && (sat p <=? sat upper)
     && (val lower <=? val p) && (val p <=? val upper)
  then 255 else 0.

Section AutoCrop.

Variable cv : cv2.

(** [max(contours, key=cv2.contourArea)]: the first contour of largest
    area. *)
Fixpoint max_by_area (best : contour) (best_area : Q) (cs : list contour)
  : Py.result contour :=
  match cs with
  | [] => Py.Ok best
  | c :: cs' =>
      a <- contourArea cv c ;;
      if FP.Qlt_bool best_area a then max_by_area c a cs'
      else max_by_area best best_area cs'
  end.

(** The mask of plant pixels. *)
Definition green_mask (im : image) : Py.result (list (list Z)) :=
  let cv_image := map (map rgb2bgr) (pixels im) in
  hsv_image <- cvtColor_BGR2HSV cv cv_image ;;
  Py.Ok (map (map (inRange lower_green upper_green)) hsv_image).

(** The body of the [try] block: [Some cropped] when it returns from inside
    the [if contours:] branch, [None] when it falls through. *)
Definition auto_crop_try (im : image) : Py.result (option image) :=
  mask <- green_mask im ;;
  contours <- findContours cv mask ;;
  match contours with
  | [] => Py.Ok None
  | c0 :: rest =>
      a0 <- contourArea cv c0 ;;
      largest_contour <- max_by_area c0 a0 rest ;;
      ' (x, y, w, h) <- boundingRect cv largest_contour ;;
      let padding_x := FP.trunc (Py.int_mul_float (width im) (FP.f64 (1 # 10))) in
      let padding_y := FP.trunc (Py.int_mul_float (height im) (FP.f64 (1 # 10))) in
      let x := Z.max 0 (x - padding_x) in
      let y := Z.max 0 (y - padding_y) in
      let w := Z.min (width im - x) (w + 2 * padding_x) in
      let h := Z.min (height im - y) (h + 2 * padding_y) in
      cropped <- crop im x y (x + w) (y + h) ;;
      Py.Ok (Some cropped)
  end.

(** [except Exception] logs a warning and falls through to
    [return image]. *)
Definition auto_crop_plant (im : image) : Py.result image :=
  match auto_crop_try im with
  | Py.Ok (Some cropped) => Py.Ok cropped
  | Py.Ok None => Py.Ok im
  | Py.Raise _ => Py.Ok im
  end.

End AutoCrop.

(** A pixel of the HSV array lies in the green band: hue 25 to 85,
    saturation and value at least 40. *)
Definition in_green_band (p : hsv) : Prop :=
  25 <= hue p <= 85 /\ 40 <= sat p /\ 40 <= val p.

(** What OpenCV promises of [findContours]: a mask without a non-zero
    element has no contour. *)
Definition findContours_contract (cv : cv2) : Prop :=
  forall mask, Forall (Forall (fun v => v = 0)) mask ->
               findContours cv mask = Py.Ok [].

End Crop.

(* ===================================================================== *)
(** ** [CropImageProcessor] *)
(* ===================================================================== *)

Module Proc.
Import Img.
Local Open Scope string_scope.
Local Open Scope Z_scope.

(** *** Configuration *)

Record config := mkConfig {
  target_size : Z * Z;
  quality : Z;
  brightness_threshold : Q;
  contrast_enhancement : Q;
  sharpness_enhancement : Q;
  noise_reduction : bool;
  color_correction : bool;
  auto_crop : bool
}.

(** The caller's dictionary: the recognised keys it holds. *)
Record overrides := mkOverrides {
  o_target_size : option (Z * Z);
  o_quality : option Z;
  o_brightness_threshold : option Q;
  o_contrast_enhancement : option Q;
  o_sharpness_enhancement : option Q;
  o_noise_reduction : option bool;
  o_color_correction : option bool;
  o_auto_crop : option bool
}.

Definition no_overrides : overrides :=
  mkOverrides None None None None None None None None.

Definition or_default {A} (o : option A) (d : A) : A :=
  match o with Some v => v | None => d end.

(** [__init__]: the defaults, overlaid by the caller's entries. *)
Definition init_config (o : overrides) : config :=
  mkConfig (or_default (o_target_size o) (512, 512))
           (or_default (o_quality o) 95)
           (or_default (o_brightness_threshold o) (3 # 10))
           (or_default (o_contrast_enhancement o) (12 # 10))
           (or_default (o_sharpness_enhancement o) (11 # 10))
           (or_default (o_noise_reduction o) true)
           (or_default (o_color_correction o) true)
           (or_default (o_auto_crop o) true).

Definition default_config : config := init_config no_overrides.

Definition supported_formats : list string :=
  [".jpg"; ".jpeg"; ".png"; ".webp"; ".bmp"; ".tiff"].

(** *** Statistics, events and the processor's state *)

Record statistics := mkStats {
  processed_count : Z;
  error_count : Z;
  avg_processing_time : Q
}.

Definition init_stats : statistics := mkStats 0 0 0.

(** The transformation stages of the pipeline. *)
Inductive stage :=
| AutoCrop
| SmartResize
| NormalizeLighting
| CorrectColors
| EnhanceContrast
| EnhanceSharpness
| ReduceNoise.

(** What an instrumented run records: every call of the decoder, every
    stage entered, every call of the encoder. *)
Inductive event :=
| EvOpen (path : string)
| EvStage (s : stage)
| EvSave (path : string).

Record state := mkState {
  stats : statistics;
  clock : nat;
  trace : list event
}.

Definition init_state : state := mkState init_stats 0 [].

(** *** Results *)

Record quality_metrics := mkMetrics {
  brightness : Q;
  contrast : Q;
  sharpness : Q
}.

Record success_result := mkSuccess {
  input_path : string;
  output_path : string;
  original_size : Z * Z;
  processed_size : Z * Z;
  processing_time : Q;
  file_size_before : Z;
  file_size_after : Z;
  preprocessing_applied : list string;
  metrics : quality_metrics;
  timestamp : Q
}.

Record failure_result := mkFailure {
  error : string;
  failed_input_path : string;
  failed_processing_time : Q
}.

(** The dictionary [process_image] returns; ['success'] is the
    constructor. *)
Inductive processing_result :=
| Success (r : success_result)
| Failure (r : failure_result).

Definition success (r : processing_result) : bool :=
  match r with Success _ => true | Failure _ => false end.

(** *** The libraries and the operating system *)

(** A single-channel array with its shape. *)
Record plane := mkPlane {
  plane_width : Z;
  plane_height : Z;
  plane_data : list (list Z)
}.

Record env := mkEnv {
  (* time.time(), by the number of earlier calls *)
  time : nat -> Q;
  (* pathlib and os *)
  path_exists : string -> bool;
  path_suffix : string -> string;
  path_st_size : string -> Py.result Z;
  mkdir_parent : string -> Py.result unit;
  getsize : string -> Py.result Z;
  (* PIL: the decoder returns the mode and the image *)
  Image_open : string -> Py.result (string * image);
  convert_RGB : string * image -> Py.result image;
  exif_transpose : image -> Py.result image;
  lanczos : image -> Z -> Z -> list (list pixel);
  Contrast_enhance : image -> Q -> Py.result image;
  Sharpness_enhance : image -> Q -> Py.result image;
  Image_save : image -> string -> Z -> bool -> Py.result unit;
  (* OpenCV; three-channel arrays are held as [image] values *)
  cv : Crop.cv2;
  cvtColor_RGB2LAB : image -> Py.result image;
  cvtColor_LAB2RGB : image -> Py.result image;
  clahe_apply : plane -> Py.result plane;
  bilateralFilter : image -> Z -> Z -> Z -> Py.result image;
  cvtColor_RGB2GRAY : image -> Py.result plane;
  Laplacian_var : plane -> Py.result Q;
  (* NumPy and the built-in round *)
  np_mean : image -> Q;
  np_std : image -> Q;
  round_ndigits : Q -> Z -> Q
}.

(** *** State and exceptions *)

(** A method of the processor: it reads and updates the state and either
    returns a value or raises. *)
Definition M (A : Type) : Type := state -> Py.result A * state.

Definition ret {A} (a : A) : M A := fun s => (Py.Ok a, s).

Definition bind {A B} (m : M A) (k : A -> M B) : M B :=
  fun s =>
    match m s with
    | (Py.Ok a, s') => k a s'
    | (Py.Raise e, s') => (Py.Raise e, s')
    end.

Definition lift {A} (r : Py.result A) : M A := fun s => (r, s).

Definition raise {A} (c : Py.exn_class) (msg : string) : M A :=
  lift (Py.Raise (Py.mkExn c msg)).

(** [try: body except Exception as e: handler e]; what the body did to the
    state before it raised stays done. *)
Definition try_except {A} (body : M A) (handler : Py.exn -> M A) : M A :=
  fun s =>
    match body s with
    | (Py.Ok a, s') => (Py.Ok a, s')
    | (Py.Raise e, s') => handler e s'
    end.

Definition log (ev : event) : M unit :=
  fun s => (Py.Ok tt, mkState (stats s) (clock s) (trace s ++ [ev])%list).

Definition modify_stats (f : statistics -> statistics) : M unit :=
  fun s => (Py.Ok tt, mkState (f (stats s)) (clock s) (trace s)).

(** A method that leaves the statistics alone, however it ends. *)
Definition keeps_stats {A} (m : M A) : Prop :=
  forall s r s', m s = (r, s') -> stats s' = stats s.

Declare Scope proc_scope.
Delimit Scope proc_scope with proc.
Notation "x <- e ;; k" := (bind e (fun x => k))
  (at level 61, e at next level, right associativity) : proc_scope.
Notation "e ;; k" := (bind e (fun _ => k))
  (at level 61, right associativity) : proc_scope.

Local Open Scope proc_scope.

Section Processor.

Variable E : env.
Variable cfg : config.

Definition time_time : M Q :=
  fun s => (Py.Ok (time E (clock s)),
            mkState (stats s) (S (clock s)) (trace s)).

(** *** [_validate_input] *)

Definition max_file_size : Z := 20 * 1024 * 1024.

Definition validate_input (input_path : string) : M unit :=
  if negb (path_exists E input_path) then
    raise Py.FileNotFoundError ("Input image not found: " ++ input_path)
  else if negb (Py.str_in (Py.lower (path_suffix E input_path))
                          supported_formats) then
    raise Py.ValueError
          ("Unsupported image format: " ++ path_suffix E input_path)
  else
    st_size <- lift (path_st_size E input_path) ;;
    if (max_file_size <? st_size)%Z then
      raise Py.ValueError "Image file too large (max 20MB)"
    else ret tt.

(** *** [_load_image] *)

Definition load_image_try (input_path : string) : M image :=
  log (EvOpen input_path) ;;
  opened <- lift (Image_open E input_path) ;;
  im <- (if negb (String.eqb (fst opened) "RGB")
         then lift (convert_RGB E opened)
         else ret (snd opened)) ;;
  lift (exif_transpose E im).

Definition load_image (input_path : string) : M image :=
  try_except (load_image_try input_path)
    (fun e => raise Py.ValueError ("Failed to load image: " ++ Py.str e)).

(** *** The stages *)

(** [cv2.merge([l, a, b])]: the planes must have one size. *)
Definition merge_l (l : plane) (lab : image) : Py.result image :=
  if ((plane_width l =? width lab) && (plane_height l =? height lab))%Z then
    Py.Ok (mkImage (width lab) (height lab)
             (map (fun '(lrow, row) =>
                     map (fun '(v, p) => mkPixel v (green p) (blue p))
                         (combine lrow row))
                  (combine (plane_data l) (pixels lab))))
  else Py.Raise (Py.mkExn (Py.LibraryError "cv2.error") "merge: size mismatch").

Definition normalize_lighting (im : image) : Py.result image :=
  (lab <- cvtColor_RGB2LAB E im ;;
   let l := mkPlane (width lab) (height lab) (map (map red) (pixels lab)) in
   l_normalized <- clahe_apply E l ;;
   normalized <- merge_l l_normalized lab ;;
   cvtColor_LAB2RGB E normalized)%py.

(** [cv2.COLOR_RGB2BGR] and [cv2.COLOR_BGR2RGB] swap channels 0 and 2. *)
Definition swap_rb (im : image) : image :=
  mkImage (width im) (height im)
          (map (map (fun p => mkPixel (blue p) (green p) (red p))) (pixels im)).

Definition reduce_noise (im : image) : Py.result image :=
  (let cv_image := swap_rb im in
   denoised <- bilateralFilter E cv_image 9 75 75 ;;
   Py.Ok (swap_rb denoised))%py.

Definition enhance_quality (im : image) : M image :=
  log (EvStage EnhanceContrast) ;;
  im <- lift (Contrast_enhance E im (contrast_enhancement cfg)) ;;
  log (EvStage EnhanceSharpness) ;;
  lift (Sharpness_enhance E im (sharpness_enhancement cfg)).

(** *** [_preprocess_pipeline]

    Each stage is entered in the trace as it starts. *)
Definition preprocess_pipeline (im : image)
    (metadata : option (list (string * string))) : M image :=
  im <- (if auto_crop cfg
         then log (EvStage AutoCrop) ;; lift (Crop.auto_crop_plant (cv E) im)
         else ret im) ;;
  log (EvStage SmartResize) ;;
  im <- lift (Resize.smart_resize (lanczos E) (target_size cfg) im) ;;
  log (EvStage NormalizeLighting) ;;
  im <- lift (normalize_lighting im) ;;
  im <- (if color_correction cfg
         then log (EvStage CorrectColors) ;;
              ret (Colors.correct_colors FP.f32 im)
         else ret im) ;;
  im <- enhance_quality im ;;
  im <- (if noise_reduction cfg
         then log (EvStage ReduceNoise) ;; lift (reduce_noise im)
         else ret im) ;;
  ret im.

(** *** [_save_image] *)

Definition save_image (im : image) (output_path : string) : M unit :=
  lift (mkdir_parent E output_path) ;;
  let progressive :=
    Py.endswith (Py.lower output_path) ".jpg"
    || Py.endswith (Py.lower output_path) ".jpeg" in
  log (EvSave output_path) ;;
  lift (Image_save E im output_path (quality cfg) progressive).

(** *** [_get_applied_preprocessing] *)

Definition get_applied_preprocessing : list string :=
  let steps := ["resize_to_512x512"; "lighting_normalization";
                "contrast_enhancement"; "sharpness_enhancement"] in
  let steps := if auto_crop cfg then "auto_crop_plant_focus" :: steps
               else steps in
  let steps := if color_correction cfg then (steps ++ ["color_correction"])%list
               else steps in
  let steps := if noise_reduction cfg then (steps ++ ["noise_reduction"])%list
               else steps in
  steps.

(** *** [_calculate_quality_metrics] *)

Definition calculate_quality_metrics (im : image)
  : Py.result quality_metrics :=
  (let brightness := FP.f64 (np_mean E im / 255) in
   let contrast := FP.f64 (np_std E im / 255) in
   gray <- cvtColor_RGB2GRAY E im ;;
   lap_var <- Laplacian_var E gray ;;
   let sharpness := FP.f64 (lap_var / 1000) in
   Py.Ok (mkMetrics (round_ndigits E brightness 3)
                    (round_ndigits E contrast 3)
                    (round_ndigits E sharpness 3)))%py.

(** *** [process_image] *)

(** The update of the running statistics on the success path. *)
Definition update_statistics (processing_time : Q) (st : statistics)
  : statistics :=
  let count := processed_count st + 1 in
  mkStats count (error_count st)
    (FP.f64 (FP.f64 (FP.f64 (avg_processing_time st
                             * FP.f64 (inject_Z (count - 1)))
                     + processing_time)
             / FP.f64 (inject_Z count))).

Definition count_error (st : statistics) : statistics :=
  mkStats (processed_count st) (error_count st + 1) (avg_processing_time st).

(** The body of the [try] block. *)
Definition process_image_try (start_time : Q) (input_path output_path : string)
    (metadata : option (list (string * string))) : M processing_result :=
  validate_input input_path ;;
  im <- load_image input_path ;;
  let original_size := size im in
  processed_image <- preprocess_pipeline im metadata ;;
  save_image processed_image output_path ;;
  now <- time_time ;;
  let processing_time := FP.f64 (now - start_time) in
  modify_stats (update_statistics processing_time) ;;
  file_size_before <- lift (getsize E input_path) ;;
  file_size_after <- lift (getsize E output_path) ;;
  let applied := get_applied_preprocessing in
  quality <- lift (calculate_quality_metrics processed_image) ;;
  stamp <- time_time ;;
  ret (Success (mkSuccess input_path output_path original_size
                          (size processed_image) processing_time
                          file_size_before file_size_after applied
                          quality stamp)).

(** The [except Exception] handler. *)
Definition process_image_except (start_time : Q) (input_path : string)
    (e : Py.exn) : M processing_result :=
  modify_stats count_error ;;
  now <- time_time ;;
  ret (Failure (mkFailure (Py.str e) input_path (FP.f64 (now - start_time)))).

Definition process_image (input_path output_path : string)
    (metadata : option (list (string * string))) : M processing_result :=
  start_time <- time_time ;;
  try_except (process_image_try start_time input_path output_path metadata)
             (process_image_except start_time input_path).

End Processor.

(** *** Reading a trace *)

Definition stage_name (s : stage) : string :=
  match s with
  | AutoCrop => "auto_crop_plant_focus"
  | SmartResize => "resize_to_512x512"
  | NormalizeLighting => "lighting_normalization"
  | CorrectColors => "color_correction"
  | EnhanceContrast => "contrast_enhancement"
  | EnhanceSharpness => "sharpness_enhancement"
  | ReduceNoise => "noise_reduction"
  end.

(** The stages of a trace, in the order they were entered. *)
Fixpoint stages_of (t : list event) : list stage :=
  match t with
  | [] => []
  | EvStage s :: t' => s :: stages_of t'
  | _ :: t' => stages_of t'
  end.

(** How often the decoder was called. *)
Fixpoint decoder_calls (t : list event) : nat :=
  match t with
  | [] => O
  | EvOpen _ :: t' => S (decoder_calls t')
  | _ :: t' => decoder_calls t'
  end.

(** The state after further events. *)
Definition add_trace (evs : list event) (s : state) : state :=
  mkState (stats s) (clock s) (trace s ++ evs)%list.

(** The stages in the order [_preprocess_pipeline] runs them. *)
Definition pipeline_order (cfg : config) : list stage :=
  ((if auto_crop cfg then [AutoCrop] else [])
   ++ [SmartResize; NormalizeLighting]
   ++ (if color_correction cfg then [CorrectColors] else [])
   ++ [EnhanceContrast; EnhanceSharpness]
   ++ (if noise_reduction cfg then [ReduceNoise] else []))%list.

(** The stages in the order [_get_applied_preprocessing] lists them. *)
Definition report_order (cfg : config) : list stage :=
  ((if auto_crop cfg then [AutoCrop] else [])
   ++ [SmartResize; NormalizeLighting; EnhanceContrast; EnhanceSharpness]
   ++ (if color_correction cfg then [CorrectColors] else [])
   ++ (if noise_reduction cfg then [ReduceNoise] else []))%list.

(** What the libraries promise of their filters: the output has the size
    of the input. *)
Definition preserves_size (f : image -> Py.result image) : Prop :=
  forall im out, f im = Py.Ok out -> size out = size im.

Definition size_contract (E : env) : Prop :=
  preserves_size (cvtColor_RGB2LAB E) /\
  preserves_size (cvtColor_LAB2RGB E) /\
  (forall k, preserves_size (fun im => Contrast_enhance E im k)) /\
  (forall k, preserves_size (fun im => Sharpness_enhance E im k)) /\
  (forall d sc ss, preserves_size (fun im => bilateralFilter E im d sc ss)).

(** The same configuration with another target size. *)
Definition with_target_size (ts : Z * Z) (cfg : config) : config :=
  mkConfig ts (quality cfg) (brightness_threshold cfg)
           (contrast_enhancement cfg) (sharpness_enhancement cfg)
           (noise_reduction cfg) (color_correction cfg) (auto_crop cfg).

(** The same configuration with another brightness threshold. *)
Definition with_brightness_threshold (t : Q) (cfg : config) : config :=
  mkConfig (target_size cfg) (quality cfg) t
           (contrast_enhancement cfg) (sharpness_enhancement cfg)
           (noise_reduction cfg) (color_correction cfg) (auto_crop cfg).


(** Building the result record does not raise: both file sizes can be
    read and the quality metrics can be computed. *)
Definition record_builds (E : env) (ip op : string) : Prop :=
  (exists n, getsize E ip = Py.Ok n) /\
  (exists n, getsize E op = Py.Ok n) /\
  (forall im, exists q, calculate_quality_metrics E im = Py.Ok q).

(** A sequence of invocations on one processor. *)
Record request := mkRequest {
  req_input : string;
  req_output : string;
  req_metadata : option (list (string * string))
}.

Fixpoint run_all (E : env) (cfg : config) (reqs : list request) (s : state)
  : state :=
  match reqs with
  | [] => s
  | r :: reqs' =>
      run_all E cfg reqs'
        (snd (process_image E cfg (req_input r) (req_output r)
                (req_metadata r) s))
  end.

End Proc.

(* ===================================================================== *)
(** ** A small world to run the processor in *)
(* ===================================================================== *)

Module Examples.
Import Img Proc.
Local Open Scope string_scope.
Local Open Scope Z_scope.

(** [PurePosixPath.suffix] for a path without a trailing separator: the
    last component from its last dot on, when that dot is neither its first
    nor its last character. *)
Fixpoint last_component (acc s : string) : string :=
  match s with
  | EmptyString => acc
  | String c s' =>
      if Ascii.eqb c "/"%char then last_component EmptyString s'
      else last_component (acc ++ String c EmptyString) s'
  end.

Fixpoint rfind_dot (i : nat) (best : option nat) (s : string) : option nat :=
  match s with
  | EmptyString => best
  | String c s' =>
      rfind_dot (S i) (if Ascii.eqb c "."%char then Some i else best) s'
  end.

Definition posix_suffix (path : string) : string :=
  let name := last_component EmptyString path in
  match rfind_dot 0 None name with
  | Some i =>
      if ((0 <? i) && (i <? String.length name - 1))%nat
      then substring i (String.length name - i) name
      else EmptyString
  | None => EmptyString
  end.

(** Nearest-neighbour sampling, standing in for the Lanczos filter. *)
Definition nearest (im : image) (w h : Z) : list (list pixel) :=
  map (fun y => map (fun x => getpixel im (x * width im / w) (y * height im / h))
                    (zrange 0 w))
      (zrange 0 h).

(** A crude hue: 60 where green dominates, 0 elsewhere. *)
Definition toy_hsv (p : Crop.bgr) : Crop.hsv :=
  let v := Z.max (Crop.bgr_b p) (Z.max (Crop.bgr_g p) (Crop.bgr_r p)) in
  if (Crop.bgr_r p <? Crop.bgr_g p) && (Crop.bgr_b p <? Crop.bgr_g p)
  then Crop.mkHsv 60 255 v else Crop.mkHsv 0 0 v.

(** The coordinates of the non-zero elements of a mask. *)
Definition nonzero_points (mask : list (list Z)) : list (Z * Z) :=
  List.concat
    (map (fun '(y, row) =>
            List.concat
              (map (fun '(x, v) => if v =? 0 then [] else [(x, y)])
                   (combine (zrange 0 (Z.of_nat (List.length row))) row)))
         (combine (zrange 0 (Z.of_nat (List.length mask))) mask)).

(** One contour holding every non-zero element; none for an empty mask. *)
Definition toy_findContours (mask : list (list Z)) : list Crop.contour :=
  match nonzero_points mask with
  | [] => []
  | pts => [pts]
  end.

Definition toy_boundingRect (c : Crop.contour) : Z * Z * Z * Z :=
  match c with
  | [] => (0, 0, 0, 0)
  | (x0, y0) :: _ =>
      let xmin := fold_right (fun p m => Z.min (fst p) m) x0 c in
      let xmax := fold_right (fun p m => Z.max (fst p) m) x0 c in
      let ymin := fold_right (fun p m => Z.min (snd p) m) y0 c in
      let ymax := fold_right (fun p m => Z.max (snd p) m) y0 c in
      (xmin, ymin, xmax - xmin + 1, ymax - ymin + 1)
  end.

Definition toy_cv : Crop.cv2 :=
  Crop.mkCv2 (fun a => Py.Ok (map (map toy_hsv) a))
             (fun m => Py.Ok (toy_findContours m))
             (fun c => Py.Ok (inject_Z (Z.of_nat (List.length c))))
             (fun c => Py.Ok (toy_boundingRect c)).

(** A 4 x 2 image: a green patch on the left, grey elsewhere. *)
Definition leaf : image :=
  mkImage 4 2
    [[mkPixel 40 200 30; mkPixel 50 180 40; mkPixel 90 90 90; mkPixel 90 90 90];
     [mkPixel 45 190 35; mkPixel 90 90 90; mkPixel 90 90 90; mkPixel 80 80 80]].

(** A 2 x 2 image without a green pixel. *)
Definition soil : image :=
  mkImage 2 2
    [[mkPixel 120 80 40; mkPixel 110 70 30];
     [mkPixel 100 60 20; mkPixel 90 50 10]].




(** An image of one colour. *)
Definition solid (w h : Z) (p : pixel) : image :=
  mkImage w h (repeat (repeat p (Z.to_nat w)) (Z.to_nat h)).

Definition green_field : image := solid 1024 768 (mkPixel 0 255 0).

(** A file system with two images and an oversized file. *)
Definition toy_files : list (string * (Z * image)) :=
  [("field/leaf.JPG", (2048, leaf));
   ("field/soil.png", (1024, soil));
   ("field/huge.jpg", (20 * 1024 * 1024 + 1, leaf));
   ("field/notes.gif", (10, soil))].

Fixpoint lookup {A} (k : string) (l : list (string * A)) : option A :=
  match l with
  | [] => None
  | (k', v) :: l' => if String.eqb k k' then Some v else lookup k l'
  end.

Definition no_such_file {A} (path : string) : Py.result A :=
  Py.Raise (Py.mkExn Py.FileNotFoundError
              ("[Errno 2] No such file or directory: " ++ path)).

Definition toy_stat (path : string) : Py.result Z :=
  match lookup path toy_files with
  | Some (n, _) => Py.Ok n
  | None => no_such_file path
  end.

Definition toy_open (path : string) : Py.result (string * image) :=
  match lookup path toy_files with
  | Some (_, im) => Py.Ok ("RGB", im)
  | None => no_such_file path
  end.

Definition gray_plane (im : image) : plane :=
  mkPlane (width im) (height im)
          (map (map (fun p => (red p + green p + blue p) / 3)) (pixels im)).

(** The world: the clock advances by a quarter of a second per reading,
    filters leave the pixels alone, the encoder writes 512 bytes. *)
Definition toy_env : env :=
  mkEnv (fun n => inject_Z (Z.of_nat n) * (1 # 4))%Q
        (fun p => match lookup p toy_files with Some _ => true | None => false end)
        posix_suffix
        toy_stat
        (fun _ => Py.Ok tt)
        (fun p => match toy_stat p with Py.Ok n => Py.Ok n | Py.Raise _ => Py.Ok 512 end)
        toy_open
        (fun o => Py.Ok (snd o))
        (fun im => Py.Ok im)
        nearest
        (fun im _ => Py.Ok im)
        (fun im _ => Py.Ok im)
        (fun _ _ _ _ => Py.Ok tt)
        toy_cv
        (fun im => Py.Ok im)
        (fun im => Py.Ok im)
        (fun l => Py.Ok l)
        (fun im _ _ _ => Py.Ok im)
        (fun im => Py.Ok (gray_plane im))
        (fun _ => Py.Ok 0%Q)
        (Colors.mean_u8 green)
        (fun _ => 0%Q)
        (fun q _ => q).

(** The same world, except that the input file has gone by the time the
    result record asks for its size. *)
Definition vanishing_env : env :=
  mkEnv (time toy_env) (path_exists toy_env) (path_suffix toy_env)
        (path_st_size toy_env) (mkdir_parent toy_env)
        (fun p => if String.eqb p "field/leaf.JPG" then no_such_file p
                  else getsize toy_env p)
        (Image_open toy_env) (convert_RGB toy_env) (exif_transpose toy_env)
        (lanczos toy_env) (Contrast_enhance toy_env) (Sharpness_enhance toy_env)
        (Image_save toy_env) (cv toy_env) (cvtColor_RGB2LAB toy_env)
        (cvtColor_LAB2RGB toy_env) (clahe_apply toy_env) (bilateralFilter toy_env)
        (cvtColor_RGB2GRAY toy_env) (Laplacian_var toy_env) (np_mean toy_env)
        (np_std toy_env) (round_ndigits toy_env).

(** A configuration with a small target. *)
Definition small_config : config :=
  init_config (mkOverrides (Some (3, 2)) None None None None None None None).

End Examples.

(* ===================================================================== *)
(** * Properties *)
(* ===================================================================== *)

(** ** Correct rounding *)

Section FPFacts.
Local Open Scope Q_scope.

(** *** Rounding to an integer *)


Lemma Qcompare_spec' (a b : Q) :
  match Qcompare a b with
  | Lt => a < b
  | Eq => a == b
  | Gt => b < a
  end.
Proof.
  destruct (Qcompare a b) eqn:H.
  - now apply Qeq_alt.
  - now apply Qlt_alt.
  - now apply Qgt_alt.
Qed.

Lemma floor_bounds (q : Q) :
  inject_Z (Qfloor q) <= q /\ q < inject_Z (Qfloor q) + 1.
Proof.
  split; [apply Qfloor_le|].
  pose proof (Qlt_floor q) as H. rewrite inject_Z_plus in H. exact H.
Qed.

Lemma round_half_even_cases (q : Q) :
  (FP.round_half_even q = Qfloor q /\ q - inject_Z (Qfloor q) <= 1 # 2) \/
  (FP.round_half_even q = (Qfloor q + 1)%Z /\ 1 # 2 <= q - inject_Z (Qfloor q)).
Proof.
  unfold FP.round_half_even.
  pose proof (Qcompare_spec' (q - inject_Z (Qfloor q)) (1 # 2)) as H.
  destruct (Qcompare (q - inject_Z (Qfloor q)) (1 # 2)).
  - destruct (Z.even (Qfloor q)); [left|right]; split; try reflexivity;
      rewrite H; apply Qle_refl.
  - left. split; [reflexivity|now apply Qlt_le_weak].
  - right. split; [reflexivity|now apply Qlt_le_weak].
Qed.

Lemma round_half_even_error (q : Q) :
  q - (1 # 2) <= inject_Z (FP.round_half_even q) <= q + (1 # 2).
Proof.
  pose proof (floor_bounds q) as [Hlo Hhi].
  destruct (round_half_even_cases q) as [[-> H]|[-> H]].
  - split; lra.
  - rewrite inject_Z_plus. change (inject_Z 1) with 1. split; lra.
Qed.

Lemma round_half_even_Z (z : Z) : FP.round_half_even (inject_Z z) = z.
Proof.
  unfold FP.round_half_even. rewrite Qfloor_Z.
  pose proof (Qcompare_spec' (inject_Z z - inject_Z z) (1 # 2)) as H.
  destruct (Qcompare (inject_Z z - inject_Z z) (1 # 2)); try reflexivity; lra.
Qed.

Lemma round_half_even_mono (a b : Q) :
  a <= b -> (FP.round_half_even a <= FP.round_half_even b)%Z.
Proof.
  intros Hab.
  pose proof (Qfloor_resp_le a b Hab) as Hf.
  destruct (Z.eq_dec (Qfloor a) (Qfloor b)) as [Heq|Hne].
  - unfold FP.round_half_even. rewrite Heq.
    pose proof (Qcompare_spec' (a - inject_Z (Qfloor b)) (1 # 2)) as Ha.
    pose proof (Qcompare_spec' (b - inject_Z (Qfloor b)) (1 # 2)) as Hb.
    destruct (Qcompare (a - inject_Z (Qfloor b)) (1 # 2)),
             (Qcompare (b - inject_Z (Qfloor b)) (1 # 2));
      try destruct (Z.even (Qfloor b)); try lia; exfalso; lra.
  - destruct (round_half_even_cases a) as [[-> _]|[-> _]],
             (round_half_even_cases b) as [[-> _]|[-> _]]; lia.
Qed.

(** *** The binade of a positive rational *)

Lemma Qle_bool_false (a b : Q) : Qle_bool a b = false -> b < a.
Proof.
  intros H. apply Qnot_le_lt. intros Hle. apply Qle_bool_iff in Hle. congruence.
Qed.

Lemma pow2_pos (e : Z) : 0 < 2 ^ e.
Proof. now apply Qpower_0_lt. Qed.

Lemma pow2_plus (a b : Z) : 2 ^ (a + b) == 2 ^ a * 2 ^ b.
Proof. apply Qpower_plus. discriminate. Qed.

Lemma pow2_succ (a : Z) : 2 ^ (a + 1) == 2 * 2 ^ a.
Proof. rewrite pow2_plus. change (2 ^ 1) with 2. ring. Qed.

Lemma pow2_pred (a : Z) : 2 ^ a == 2 * 2 ^ (a - 1).
Proof. rewrite <- pow2_succ. now replace (a - 1 + 1)%Z with a by lia. Qed.

Lemma pow2_Z (a : Z) : (0 <= a)%Z -> inject_Z (2 ^ a) == 2 ^ a.
Proof. intros H. now rewrite Zpower_Qpower. Qed.

(** The integer logarithm of a positive integer, in Q. *)
Lemma log2_bounds (n : Z) :
  (0 < n)%Z -> 2 ^ (Z.log2 n) <= inject_Z n /\ inject_Z n < 2 * 2 ^ (Z.log2 n).
Proof.
  intros Hn. destruct (Z.log2_spec n Hn) as [Hlo Hhi].
  pose proof (Z.log2_nonneg n) as H0.
  rewrite <- pow2_succ, <- !pow2_Z by lia.
  rewrite <- Zle_Qle, <- Zlt_Qlt. replace (Z.log2 n + 1)%Z with (Z.succ (Z.log2 n)) by lia.
  now split.
Qed.

Lemma ilog2_spec (q : Q) :
  0 < q -> 2 ^ (FP.ilog2 q) <= q /\ q < 2 * 2 ^ (FP.ilog2 q).
Proof.
  intros Hq. unfold FP.ilog2.
  assert (Hn : (0 < Qnum q)%Z).
  { unfold Qlt in Hq. simpl in Hq. lia. }
  destruct (log2_bounds (Qnum q) Hn) as [Hn1 Hn2].
  destruct (log2_bounds (Zpos (Qden q)) eq_refl) as [Hd1 Hd2].
  set (a := Z.log2 (Qnum q)) in *. set (b := Z.log2 (Zpos (Qden q))) in *.
  assert (Hqd : q * inject_Z (Zpos (Qden q)) == inject_Z (Qnum q)).
  { destruct q as [n d]; simpl. rewrite (Qmake_Qdiv n d) at 1.
    field. discriminate. }
  assert (Hab : 2 ^ (a - b) * 2 ^ b == 2 ^ a).
  { rewrite <- pow2_plus. now replace (a - b + b)%Z with a by lia. }
  pose proof (pow2_pos (a - b)) as Hw. pose proof (pow2_pos b) as Hv.
  pose proof (pow2_pos a) as Hu.
  set (N := inject_Z (Qnum q)) in *. set (D := inject_Z (Zpos (Qden q))) in *.
  set (w := 2 ^ (a - b)) in *. set (v := 2 ^ b) in *. set (u := 2 ^ a) in *.
  assert (Hlo : w < 2 * q) by nra.
  assert (Hhi : q < 2 * w) by nra.
  destruct (Qle_bool w q) eqn:Hb.
  - apply Qle_bool_iff in Hb. split; [exact Hb|exact Hhi].
  - apply Qle_bool_false in Hb.
    assert (Hw2 : w == 2 * 2 ^ (a - b - 1)) by apply pow2_pred.
    split; lra.
Qed.

(** *** Rounding a positive rational *)

Lemma round_half_even_comp (a b : Q) :
  a == b -> FP.round_half_even a = FP.round_half_even b.
Proof.
  intros H. unfold FP.round_half_even.
  rewrite (Qfloor_comp a b H).
  assert (Hc : Qcompare (a - inject_Z (Qfloor b)) (1 # 2)
               = Qcompare (b - inject_Z (Qfloor b)) (1 # 2)).
  { apply Qcompare_comp; [rewrite H|]; reflexivity. }
  now rewrite Hc.
Qed.

Lemma rnd_pos_eq (p : Z) (q : Q) :
  FP.rnd_pos p q
  == inject_Z (FP.round_half_even (q / 2 ^ FP.ulp_exp p q)) * 2 ^ FP.ulp_exp p q.
Proof. unfold FP.rnd_pos, FP.ulp_exp. apply Qred_correct. Qed.

Lemma scaled_mul (q : Q) (e : Z) : q / 2 ^ e * 2 ^ e == q.
Proof. field. pose proof (pow2_pos e). lra. Qed.

Lemma scaled_range (p : Z) (q : Q) :
  0 < q ->
  2 ^ (p - 1) <= q / 2 ^ FP.ulp_exp p q /\ q / 2 ^ FP.ulp_exp p q < 2 * 2 ^ (p - 1).
Proof.
  intros Hq. destruct (ilog2_spec q Hq) as [Hlo Hhi].
  assert (Hl : 2 ^ FP.ilog2 q == 2 ^ (p - 1) * 2 ^ FP.ulp_exp p q).
  { rewrite <- pow2_plus. unfold FP.ulp_exp.
    now replace (p - 1 + (FP.ilog2 q - (p - 1)))%Z with (FP.ilog2 q) by lia. }
  pose proof (scaled_mul q (FP.ulp_exp p q)) as Hs.
  pose proof (pow2_pos (FP.ulp_exp p q)) as He.
  pose proof (pow2_pos (p - 1)) as Hp.
  set (s := q / 2 ^ FP.ulp_exp p q) in *. set (u := 2 ^ FP.ulp_exp p q) in *.
  set (t := 2 ^ (p - 1)) in *. set (l := 2 ^ FP.ilog2 q) in *.
  clearbody s u t l. split; nra.
Qed.

Lemma rnd_pos_error (p : Z) (q : Q) :
  0 < q ->
  q - 2 ^ FP.ulp_exp p q * (1 # 2) <= FP.rnd_pos p q
  /\ FP.rnd_pos p q <= q + 2 ^ FP.ulp_exp p q * (1 # 2).
Proof.
  intros Hq. rewrite rnd_pos_eq.
  pose proof (round_half_even_error (q / 2 ^ FP.ulp_exp p q)) as [Hlo Hhi].
  pose proof (scaled_mul q (FP.ulp_exp p q)) as Hs.
  pose proof (pow2_pos (FP.ulp_exp p q)) as He.
  set (s := q / 2 ^ FP.ulp_exp p q) in *. set (u := 2 ^ FP.ulp_exp p q) in *.
  set (m := inject_Z (FP.round_half_even s)) in *.
  clearbody m s u.
  assert (H1 : 0 <= (m - s + (1 # 2)) * u) by (apply Qmult_le_0_compat; lra).
  assert (H2 : 0 <= (s + (1 # 2) - m) * u) by (apply Qmult_le_0_compat; lra).
  split; lra.
Qed.

(** The rounded value stays in the binade of [q]. *)
Lemma rnd_pos_range (p : Z) (q : Q) :
  (1 <= p)%Z -> 0 < q ->
  2 ^ FP.ilog2 q <= FP.rnd_pos p q <= 2 * 2 ^ FP.ilog2 q.
Proof.
  intros Hp Hq. rewrite rnd_pos_eq.
  destruct (scaled_range p q Hq) as [Hlo Hhi].
  assert (Hl : 2 ^ FP.ilog2 q == 2 ^ (p - 1) * 2 ^ FP.ulp_exp p q).
  { rewrite <- pow2_plus. unfold FP.ulp_exp.
    now replace (p - 1 + (FP.ilog2 q - (p - 1)))%Z with (FP.ilog2 q) by lia. }
  pose proof (pow2_pos (FP.ulp_exp p q)) as He.
  assert (Hm1 : inject_Z (2 ^ (p - 1)) <= inject_Z (FP.round_half_even (q / 2 ^ FP.ulp_exp p q))).
  { rewrite <- Zle_Qle. rewrite <- (round_half_even_Z (2 ^ (p - 1))).
    apply round_half_even_mono. rewrite pow2_Z by lia. exact Hlo. }
  assert (Hm2 : inject_Z (FP.round_half_even (q / 2 ^ FP.ulp_exp p q)) <= inject_Z (2 * 2 ^ (p - 1))).
  { rewrite <- Zle_Qle. rewrite <- (round_half_even_Z (2 * 2 ^ (p - 1))).
    apply round_half_even_mono. rewrite inject_Z_mult, pow2_Z by lia.
    apply Qlt_le_weak. exact Hhi. }
  rewrite inject_Z_mult in Hm2. rewrite pow2_Z in Hm1, Hm2 by lia.
  change (inject_Z 2) with 2 in Hm2.
  set (m := inject_Z (FP.round_half_even (q / 2 ^ FP.ulp_exp p q))) in *.
  set (u := 2 ^ FP.ulp_exp p q) in *. set (t := 2 ^ (p - 1)) in *.
  set (l := 2 ^ FP.ilog2 q) in *.
  clearbody m u t l. split; nra.
Qed.

Lemma ilog2_mono (a b : Q) : 0 < a -> a <= b -> (FP.ilog2 a <= FP.ilog2 b)%Z.
Proof.
  intros Ha Hab.
  destruct (ilog2_spec a Ha) as [Ha1 _].
  destruct (ilog2_spec b) as [_ Hb2]; [lra|].
  rewrite <- pow2_succ in Hb2.
  assert (H : 2 ^ FP.ilog2 a < 2 ^ (FP.ilog2 b + 1)) by lra.
  apply Qpower_lt_compat_l_inv in H; [lia|reflexivity].
Qed.

Lemma rnd_pos_mono (p : Z) (a b : Q) :
  (1 <= p)%Z -> 0 < a -> a <= b -> FP.rnd_pos p a <= FP.rnd_pos p b.
Proof.
  intros Hp Ha Hab. assert (Hb : 0 < b) by lra.
  pose proof (ilog2_mono a b Ha Hab) as Hl.
  destruct (Z.eq_dec (FP.ilog2 a) (FP.ilog2 b)) as [Heq|Hne].
  - rewrite !rnd_pos_eq. unfold FP.ulp_exp. rewrite Heq.
    pose proof (pow2_pos (FP.ilog2 b - (p - 1))) as He.
    apply Qmult_le_compat_r; [|lra].
    rewrite <- Zle_Qle. apply round_half_even_mono.
    apply Qmult_le_compat_r; [exact Hab|].
    apply Qlt_le_weak, Qinv_lt_0_compat, He.
  - destruct (rnd_pos_range p a Hp Ha) as [_ Hup].
    destruct (rnd_pos_range p b Hp Hb) as [Hdown _].
    assert (Hpow : 2 ^ (FP.ilog2 a + 1) <= 2 ^ FP.ilog2 b).
    { apply Qpower_le_compat_l; [lia|discriminate]. }
    rewrite pow2_succ in Hpow. lra.
Qed.

(** A value with at most [p] significant bits is not changed. *)
Lemma rnd_pos_fix (p : Z) (q : Q) (m k : Z) :
  (1 <= p)%Z -> (0 < m < 2 ^ p)%Z -> q == inject_Z m * 2 ^ k ->
  FP.rnd_pos p q == q.
Proof.
  intros Hp Hm Hq.
  assert (Hm0 : 0 < inject_Z m) by (rewrite Zlt_Qlt in Hm; apply Hm).
  assert (Hq0 : 0 < q).
  { rewrite Hq. pose proof (pow2_pos k). nra. }
  destruct (ilog2_spec q Hq0) as [Hlo _].
  assert (Hek : (FP.ulp_exp p q <= k)%Z).
  { assert (Hlt : 2 ^ FP.ilog2 q < 2 ^ (p + k)).
    { assert (Hmp : inject_Z m < 2 ^ p).
      { rewrite <- pow2_Z by lia. rewrite <- Zlt_Qlt. lia. }
      rewrite pow2_plus. pose proof (pow2_pos k) as Hk.
      set (u := 2 ^ k) in *. set (t := 2 ^ p) in *.
      set (l := 2 ^ FP.ilog2 q) in *. set (M := inject_Z m) in *.
      clearbody u t l M. nra. }
    apply Qpower_lt_compat_l_inv in Hlt; [|reflexivity].
    unfold FP.ulp_exp. lia. }
  rewrite rnd_pos_eq. set (e := FP.ulp_exp p q) in *.
  assert (Hs : q / 2 ^ e == inject_Z (m * 2 ^ (k - e))).
  { rewrite inject_Z_mult, pow2_Z by lia. rewrite Hq.
    assert (Hk : 2 ^ k == 2 ^ (k - e) * 2 ^ e).
    { rewrite <- pow2_plus. now replace (k - e + e)%Z with k by lia. }
    rewrite Hk. field. pose proof (pow2_pos e). lra. }
  rewrite (round_half_even_comp _ _ Hs), round_half_even_Z, <- Hs.
  apply scaled_mul.
Qed.

(** *** Rounding *)

Lemma rnd_zero (p : Z) (q : Q) : q == 0 -> FP.rnd p q = 0.
Proof.
  intros H. unfold FP.rnd.
  assert (Hc : Qcompare q 0 = Eq) by (apply Qeq_alt; exact H).
  now rewrite Hc.
Qed.

Lemma rnd_pos_case (p : Z) (q : Q) : 0 < q -> FP.rnd p q = FP.rnd_pos p q.
Proof.
  intros H. unfold FP.rnd.
  assert (Hc : Qcompare q 0 = Gt) by (apply Qgt_alt; exact H).
  now rewrite Hc.
Qed.

Lemma rnd_neg_case (p : Z) (q : Q) :
  q < 0 -> FP.rnd p q == - FP.rnd_pos p (- q).
Proof.
  intros H. unfold FP.rnd.
  assert (Hc : Qcompare q 0 = Lt) by (apply Qlt_alt; exact H).
  rewrite Hc. apply Qred_correct.
Qed.

Lemma rnd_pos_positive (p : Z) (q : Q) :
  (1 <= p)%Z -> 0 < q -> 0 < FP.rnd_pos p q.
Proof.
  intros Hp Hq. destruct (rnd_pos_range p q Hp Hq) as [H _].
  pose proof (pow2_pos (FP.ilog2 q)). lra.
Qed.

(** Rounding is monotone. *)
Lemma rnd_mono (p : Z) (a b : Q) :
  (1 <= p)%Z -> a <= b -> FP.rnd p a <= FP.rnd p b.
Proof.
  intros Hp Hab.
  destruct (Q_dec a 0) as [[Ha|Ha]|Ha], (Q_dec b 0) as [[Hb|Hb]|Hb];
    try (exfalso; lra).
  - rewrite (rnd_neg_case p a Ha), (rnd_neg_case p b Hb).
    assert (H : FP.rnd_pos p (- b) <= FP.rnd_pos p (- a))
      by (apply rnd_pos_mono; [exact Hp|lra|lra]).
    lra.
  - rewrite (rnd_neg_case p a Ha), (rnd_pos_case p b Hb).
    assert (H1 : 0 < FP.rnd_pos p (- a)) by (apply rnd_pos_positive; [exact Hp|lra]).
    assert (H2 : 0 < FP.rnd_pos p b) by (apply rnd_pos_positive; [exact Hp|lra]).
    lra.
  - rewrite (rnd_neg_case p a Ha), (rnd_zero p b Hb).
    assert (H1 : 0 < FP.rnd_pos p (- a)) by (apply rnd_pos_positive; [exact Hp|lra]).
    lra.
  - rewrite (rnd_pos_case p a Ha), (rnd_pos_case p b Hb).
    now apply rnd_pos_mono.
  - rewrite (rnd_zero p a Ha), (rnd_pos_case p b Hb).
    apply Qlt_le_weak, rnd_pos_positive; [exact Hp|lra].
  - rewrite (rnd_zero p a Ha), (rnd_zero p b Hb). apply Qle_refl.
Qed.

(** Rounding respects equality of rationals. *)
Lemma rnd_comp (p : Z) (a b : Q) :
  (1 <= p)%Z -> a == b -> FP.rnd p a == FP.rnd p b.
Proof.
  intros Hp Hab. apply Qle_antisym; apply rnd_mono; try exact Hp;
    rewrite Hab; apply Qle_refl.
Qed.

(** Integers below [2^p], and their products with a power of two, are
    representable. *)
Lemma rnd_fix (p : Z) (q : Q) (m k : Z) :
  (1 <= p)%Z -> (Z.abs m < 2 ^ p)%Z -> q == inject_Z m * 2 ^ k ->
  FP.rnd p q == q.
Proof.
  intros Hp Hm Hq. pose proof (pow2_pos k) as Hk.
  destruct (Z.lt_trichotomy m 0) as [Hneg|[Hz|Hpos]].
  - assert (Hm' : inject_Z m < 0) by (now rewrite Zlt_Qlt in Hneg).
    assert (Hq0 : q < 0). { rewrite Hq. set (u := 2 ^ k) in *. clearbody u. nra. }
    rewrite (rnd_neg_case p q Hq0).
    rewrite (rnd_pos_fix p (- q) (- m) k); [ring|exact Hp|lia|].
    rewrite Hq, inject_Z_opp. ring.
  - subst m. rewrite rnd_zero; rewrite Hq; ring.
  - assert (Hm' : 0 < inject_Z m) by (now rewrite Zlt_Qlt in Hpos).
    assert (Hq0 : 0 < q). { rewrite Hq. set (u := 2 ^ k) in *. clearbody u. nra. }
    rewrite (rnd_pos_case p q Hq0).
    apply (rnd_pos_fix p q m k); [exact Hp|lia|exact Hq].
Qed.

Lemma rnd_Z (p n : Z) :
  (1 <= p)%Z -> (Z.abs n < 2 ^ p)%Z -> FP.rnd p (inject_Z n) == inject_Z n.
Proof.
  intros Hp Hn. apply (rnd_fix p _ n 0 Hp Hn). change (2 ^ 0) with 1. ring.
Qed.

(** The relative error of rounding is at most [2^(-p)]. *)
Lemma rnd_rel_error (p : Z) (q : Q) :
  (1 <= p)%Z -> 0 < q ->
  q * (1 - 2 ^ (- p)) <= FP.rnd p q /\ FP.rnd p q <= q * (1 + 2 ^ (- p)).
Proof.
  intros Hp Hq. rewrite (rnd_pos_case p q Hq).
  destruct (rnd_pos_error p q Hq) as [Hlo Hhi].
  destruct (ilog2_spec q Hq) as [Hl _].
  assert (He : 2 ^ FP.ulp_exp p q * (1 # 2) == 2 ^ FP.ilog2 q * 2 ^ (- p)).
  { rewrite <- pow2_plus. unfold FP.ulp_exp.
    rewrite (pow2_pred (FP.ilog2 q - (p - 1))).
    replace (FP.ilog2 q - (p - 1) - 1)%Z with (FP.ilog2 q + - p)%Z by lia.
    ring. }
  rewrite He in Hlo, Hhi. pose proof (pow2_pos (- p)) as Hu.
  set (u := 2 ^ (- p)) in *. set (l := 2 ^ FP.ilog2 q) in *.
  set (r := FP.rnd_pos p q) in *. clearbody u l r. split; nra.
Qed.





Lemma Qlt_bool_iff (a b : Q) : FP.Qlt_bool a b = true <-> (a < b)%Q.
Proof.
  unfold FP.Qlt_bool. rewrite negb_true_iff. split.
  - intros H. now apply Qle_bool_false.
  - intros H. destruct (Qle_bool b a) eqn:Hb; [|reflexivity].
    apply Qle_bool_iff in Hb. exfalso. now apply (Qlt_not_le a b).
Qed.

End FPFacts.

(** ** Ranges and bytes *)

Section Ranges.
Import Img.

Lemma in_zrange (lo hi v : Z) : lo <= v < hi -> In v (zrange lo hi).
Proof.
  intros Hv. unfold zrange. apply in_map_iff.
  exists (Z.to_nat (v - lo)). split.
  - rewrite Z2Nat.id by lia. lia.
  - apply in_seq. split; [lia|]. simpl. apply Z2Nat.inj_lt; lia.
Qed.

Lemma length_zrange (lo hi : Z) :
  List.length (zrange lo hi) = Z.to_nat (hi - lo).
Proof. unfold zrange. now rewrite length_map, length_seq. Qed.

(** A property checked on all 256 bytes holds of every byte. *)
Lemma forall_u8 (f : Z -> bool) :
  forallb f (zrange 0 256) = true -> forall v, is_u8 v -> f v = true.
Proof.
  intros Hall v Hv. rewrite forallb_forall in Hall.
  apply Hall, in_zrange. unfold is_u8 in Hv. lia.
Qed.

End Ranges.

(** ** The colour corrector *)

Section ColorFacts.
Import Img Colors.

(** A byte survives the float32 round trip of [_correct_colors]: division
    by 255, multiplication by 255, clipping and truncation. *)
Lemma u8_round_trip (v : Z) :
  is_u8 v -> to_u8 FP.f32 (to_unit FP.f32 v) = v.
Proof.
  intros Hv. apply Z.eqb_eq.
  apply (forall_u8 (fun g => to_u8 FP.f32 (to_unit FP.f32 g) =? g)); [|exact Hv].
  vm_compute. reflexivity.
Qed.

Lemma correct_pixel_green (sr sb : Q) (p : pixel) :
  pixel_ok p -> green (correct_pixel FP.f32 sr sb p) = green p.
Proof. intros (_ & Hg & _). simpl. now apply u8_round_trip. Qed.

(** C3. The colour-correction stage leaves the green channel unchanged:
    in the output of [_correct_colors], computed in float32 as the source
    does (division by 255, multiplication back by 255, clipping and
    truncation to 8 bits), every pixel has the green value it had in the
    input, and the image keeps its size. Only channels 0 and 2 are
    scaled. *)
Theorem correct_colors_keeps_green (im : image) :
  image_ok im ->
  size (correct_colors FP.f32 im) = size im /\
  map (map green) (pixels (correct_colors FP.f32 im))
  = map (map green) (pixels im).
Proof.
  intros Hok. split; [reflexivity|].
  unfold correct_colors. simpl.
  generalize (scale_r FP.f32 im) (scale_b FP.f32 im). intros sr sb.
  unfold image_ok in Hok.
  induction Hok as [|row rows Hrow _ IH]; simpl; [reflexivity|].
  f_equal; [|exact IH].
  induction Hrow as [|p ps Hp _ IHrow]; simpl; [reflexivity|].
  f_equal; [|exact IHrow].
  exact (correct_pixel_green sr sb p Hp).
Qed.

Lemma leaf_ok : image_ok Examples.leaf.
Proof.
  unfold image_ok, Examples.leaf. simpl.
  repeat (apply Forall_cons || apply Forall_nil);
    unfold pixel_ok, is_u8; simpl; lia.
Defined.

Lemma correct_colors_keeps_green_witness :
  image_ok Examples.leaf /\
  map (map green) (pixels (correct_colors FP.f32 Examples.leaf))
  = [[200; 180; 90; 90]; [190; 90; 90; 80]].
Proof.
  split; [exact leaf_ok|].
  rewrite (proj2 (correct_colors_keeps_green Examples.leaf leaf_ok)).
  reflexivity.
Defined.




(** A channel whose float mean is not positive gets the factor 1.0. *)
Lemma scale_of_zero_mean (avg_g : Q) :
  damp FP.f32 (full_scale FP.f32 0 avg_g) = 1%Q.
Proof. vm_compute. reflexivity. Qed.

(** *** The float32 factor *)

Section Float32Factor.
Local Open Scope Q_scope.








End Float32Factor.






End ColorFacts.

(** ** The geometric normalizer *)

Section ResizeFacts.
Import Img Resize.

Lemma crop_size (im out : image) (left upper right lower : Z) :
  crop im left upper right lower = Py.Ok out ->
  size out = (right - left, lower - upper).
Proof.
  unfold crop. destruct (right <? left); [discriminate|].
  destruct (lower <? upper); [discriminate|].
  intros H. injection H as <-. reflexivity.
Qed.

Lemma resize_size (f : image -> Z -> Z -> list (list pixel))
    (im out : image) (w h : Z) :
  resize f im w h = Py.Ok out -> size out = (w, h) /\ 1 <= w /\ 1 <= h.
Proof.
  unfold resize. destruct ((w <? 1) || (h <? 1)) eqn:Hwh; [discriminate|].
  intros H. injection H as <-. apply orb_false_iff in Hwh.
  destruct Hwh as [Hw Hh]. apply Z.ltb_ge in Hw, Hh. now split.
Qed.

(** Whatever size the float computation hands to [resize], the buffer
    [_smart_resize] returns has exactly the target size. *)
Lemma smart_resize_size (f : image -> Z -> Z -> list (list pixel))
    (target : Z * Z) (im out : image) :
  smart_resize f target im = Py.Ok out -> size out = target.
Proof.
  unfold smart_resize. destruct target as [tw th].
  destruct (scaled_size (tw, th) im) as [[nw nh]|e]; simpl; [|discriminate].
  destruct (resize f im nw nh) as [resized|e] eqn:Hr; simpl; [|discriminate].
  apply resize_size in Hr as (Hsz & _ & _).
  destruct (negb (nw =? tw) || negb (nh =? th)) eqn:Hc.
  - intros H. apply crop_size in H. rewrite H. f_equal; lia.
  - intros H. injection H as <-. apply orb_false_iff in Hc as [H1 H2].
    apply negb_false_iff, Z.eqb_eq in H1, H2. subst. exact Hsz.
Qed.

(** *** [_smart_resize] returns *)

Section Returns.
Local Open Scope Q_scope.

Lemma trunc_ge_1 (q : Q) : 1 <= q -> (1 <= FP.trunc q)%Z.
Proof.
  intros Hq. unfold FP.trunc.
  assert (Hc : Qcompare q 0 = Gt) by (apply Qgt_alt; lra).
  rewrite Hc. change 1%Z with (Qfloor 1). now apply Qfloor_resp_le.
Qed.

Lemma f64_ge_1 (q : Q) : 1 <= q -> 1 <= FP.f64 q.
Proof.
  intros Hq. unfold FP.f64.
  assert (H1 : FP.rnd 53 1 == 1) by (vm_compute; reflexivity).
  rewrite <- H1. now apply rnd_mono.
Qed.

Lemma f64_int (n : Z) :
  (0 < n < 2 ^ 53)%Z -> FP.f64 (inject_Z n) == inject_Z n.
Proof. intros Hn. apply rnd_Z; lia. Qed.

Lemma Qdiv_mul (a b : Q) : 0 < b -> a / b * b == a.
Proof. intros Hb. field. lra. Qed.

Lemma scaled_size_positive (tw th : Z) (im : image) :
  (0 < width im)%Z -> (0 < height im < 2 ^ 53)%Z ->
  (0 < tw < 2 ^ 53)%Z -> (0 < th < 2 ^ 53)%Z ->
  exists nw nh, scaled_size (tw, th) im = Py.Ok (nw, nh)
                /\ (1 <= nw)%Z /\ (1 <= nh)%Z.
Proof.
  intros Hw Hh Htw Hth. unfold scaled_size, Py.int_truediv.
  destruct (Z.eqb_spec (height im) 0) as [H0|_]; [lia|].
  destruct (Z.eqb_spec th 0) as [H0|_]; [lia|]. simpl.
  set (W := inject_Z (width im)). set (H := inject_Z (height im)).
  set (TW := inject_Z tw). set (TH := inject_Z th).
  assert (HW : 1 <= W) by (unfold W; rewrite <- (Zle_Qle 1); lia).
  assert (HH : 1 <= H) by (unfold H; rewrite <- (Zle_Qle 1); lia).
  assert (HTW : 1 <= TW) by (unfold TW; rewrite <- (Zle_Qle 1); lia).
  assert (HTH : 1 <= TH) by (unfold TH; rewrite <- (Zle_Qle 1); lia).
  pose proof (Qdiv_mul W H ltac:(lra)) as Hx.
  pose proof (Qdiv_mul TW TH ltac:(lra)) as Ht.
  assert (Hxpos : 0 < W / H).
  { apply Qlt_shift_div_l; lra. }
  assert (Hro : 0 < FP.f64 (W / H)).
  { unfold FP.f64. rewrite (rnd_pos_case 53 _ Hxpos).
    apply rnd_pos_positive; [lia|exact Hxpos]. }
  destruct (FP.Qlt_bool (FP.f64 (TW / TH)) (FP.f64 (W / H))) eqn:Hb.
  - (* fit by height *)
    eexists _, _. split; [reflexivity|]. split; [|lia].
    apply trunc_ge_1. unfold Py.int_mul_float. apply f64_ge_1.
    assert (HfTH : FP.f64 TH == TH) by (apply f64_int; exact Hth).
    fold TH. rewrite HfTH.
    apply Qlt_bool_iff in Hb.
    assert (Hlt : TW / TH < W / H).
    { apply Qnot_le_lt. intros Hle.
      apply (rnd_mono 53) in Hle; [|lia]. unfold FP.f64 in Hb. lra. }
    assert (Hcross : TW * H < W * TH).
    { assert (Hp : 0 < (W / H - TW / TH) * (TH * H)).
      { apply Qmult_lt_0_compat; [lra|]. apply Qmult_lt_0_compat; lra. }
      set (x := W / H) in *. set (t := TW / TH) in *. clearbody x t. nra. }
    assert (Hint : TW * H + 1 <= W * TH).
    { unfold TW, H, W, TH. rewrite <- !inject_Z_mult.
      change 1 with (inject_Z 1). rewrite <- inject_Z_plus, <- Zle_Qle.
      unfold TW, H, W, TH in Hcross. rewrite <- !inject_Z_mult in Hcross.
      rewrite <- Zlt_Qlt in Hcross. lia. }
    destruct (rnd_rel_error 53 (W / H) ltac:(lia) Hxpos) as [Hrel _].
    fold (FP.f64 (W / H)) in Hrel.
    change (2 ^ (- (53))) with (2 ^ (-53)) in Hrel.
    assert (Hu : (H + 1) * 2 ^ (-53) <= 1).
    { assert (HH53 : H + 1 <= inject_Z (2 ^ 53)).
      { unfold H. change 1 with (inject_Z 1).
        rewrite <- inject_Z_plus, <- Zle_Qle. lia. }
      change (inject_Z (2 ^ 53)) with (9007199254740992 # 1) in HH53.
      change (2 ^ (-53)) with (1 # 9007199254740992). lra. }
    assert (Hu0 : 0 < 2 ^ (-53)) by reflexivity.
    assert (Hu1 : 2 ^ (-53) < 1) by reflexivity.
    set (u := 2 ^ (-53)) in *. set (ro := FP.f64 (W / H)) in *.
    set (x := W / H) in *. clearbody u ro x. clearbody W H TW TH.
    clear Ht Hb Hlt HfTH.
    assert (Hy : H + 1 <= TH * x * H).
    { assert (Hp : 0 <= (TW - 1) * H) by (apply Qmult_le_0_compat; lra).
      assert (Hq : TH * x * H == W * TH) by (rewrite <- Hx; ring).
      lra. }
    assert (Hyu : H <= TH * x * (1 - u) * H).
    { assert (Hp : 0 <= (TH * x * H - (H + 1)) * (1 - u))
        by (apply Qmult_le_0_compat; lra).
      nra. }
    assert (Hone : 1 <= TH * x * (1 - u)).
    { apply Qnot_lt_le. intros Hc.
      assert (Hp : 0 < (1 - TH * x * (1 - u)) * H)
        by (apply Qmult_lt_0_compat; lra).
      nra. }
    assert (Hfin : TH * (x * (1 - u)) <= TH * ro).
    { apply Qmult_le_l; lra. }
    lra.
  - (* fit by width *)
    assert (Hle : FP.f64 (W / H) <= FP.f64 (TW / TH)).
    { apply Qnot_lt_le. intros Hc. apply Qlt_bool_iff in Hc. congruence. }
    unfold Py.int_div_float.
    destruct (Qeq_bool (FP.f64 (W / H)) 0) eqn:Hz.
    { apply Qeq_bool_iff in Hz. lra. }
    simpl. eexists _, _. split; [reflexivity|]. split; [lia|].
    assert (HfTW : FP.f64 TW == TW) by (apply f64_int; exact Htw).
    apply trunc_ge_1, f64_ge_1. fold TW. rewrite HfTW.
    apply Qle_shift_div_l; [exact Hro|].
    assert (Hrt : FP.f64 (TW / TH) <= TW).
    { rewrite <- HfTW at 2. apply rnd_mono; [lia|].
      apply Qle_shift_div_r; [lra|]. nra. }
    lra.
Qed.

(** For an image of positive size and a positive target, each below
    [2^53], [_smart_resize] returns a buffer. *)
Lemma smart_resize_returns (f : image -> Z -> Z -> list (list pixel))
    (tw th : Z) (im : image) :
  (0 < width im)%Z -> (0 < height im < 2 ^ 53)%Z ->
  (0 < tw < 2 ^ 53)%Z -> (0 < th < 2 ^ 53)%Z ->
  exists out, smart_resize f (tw, th) im = Py.Ok out.
Proof.
  intros Hw Hh Htw Hth.
  destruct (scaled_size_positive tw th im Hw Hh Htw Hth)
    as (nw & nh & Hs & Hnw & Hnh).
  unfold smart_resize. rewrite Hs. simpl.
  unfold resize.
  destruct (Z.ltb_spec nw 1) as [|_]; [lia|].
  destruct (Z.ltb_spec nh 1) as [|_]; [lia|]. simpl.
  destruct (negb (nw =? tw)%Z || negb (nh =? th)%Z); [|eauto].
  unfold crop.
  destruct (Z.ltb_spec ((nw - tw) / 2 + tw) ((nw - tw) / 2)) as [|_]; [lia|].
  destruct (Z.ltb_spec ((nh - th) / 2 + th) ((nh - th) / 2)) as [|_]; [lia|].
  eauto.
Qed.

End Returns.

End ResizeFacts.

(** ** The subject locator *)

Section CropFacts.
Import Img Crop.

Lemma inRange_green_band (p : hsv) :
  ~ in_green_band p -> inRange lower_green upper_green p = 0.
Proof.
  intros Hp. unfold inRange, lower_green, upper_green. simpl.
  destruct ((25 <=? hue p) && (hue p <=? 85) && (40 <=? sat p)
            && (sat p <=? 255) && (40 <=? val p) && (val p <=? 255)) eqn:Hb;
    [|reflexivity].
  exfalso. apply Hp. unfold in_green_band.
  repeat (apply andb_true_iff in Hb; destruct Hb as [Hb ?]).
  repeat match goal with H : (_ <=? _) = true |- _ => apply Z.leb_le in H end.
  lia.
Qed.

Lemma green_mask_zero (cv : cv2) (im : image) (mask : list (list Z)) :
  (forall hsv_image,
      cvtColor_BGR2HSV cv (map (map rgb2bgr) (pixels im)) = Py.Ok hsv_image ->
      Forall (Forall (fun p => ~ in_green_band p)) hsv_image) ->
  green_mask cv im = Py.Ok mask ->
  Forall (Forall (fun v => v = 0)) mask.
Proof.
  intros Hno. unfold green_mask.
  destruct (cvtColor_BGR2HSV cv (map (map rgb2bgr) (pixels im)))
    as [hsv_image|e]; simpl; [|discriminate].
  specialize (Hno hsv_image eq_refl). intros H. injection H as <-.
  induction Hno as [|row rows Hrow _ IH]; simpl; constructor; [|exact IH].
  induction Hrow as [|p ps Hp _ IHrow]; simpl; constructor; [|exact IHrow].
  now apply inRange_green_band.
Qed.

(** C5. When no pixel of the HSV array lies in the green band (hue 25 to
    85, saturation and value at least 40), and also whenever a step of the
    [try] block raises, [_auto_crop_plant] returns its input image; and it
    never raises itself. OpenCV's promise that a mask without a non-zero
    element has no contour is the hypothesis on [findContours]. *)
Theorem auto_crop_plant_fallback (cv : cv2) (im : image) :
  findContours_contract cv ->
  ((forall hsv_image,
       cvtColor_BGR2HSV cv (map (map rgb2bgr) (pixels im)) = Py.Ok hsv_image ->
       Forall (Forall (fun p => ~ in_green_band p)) hsv_image) ->
   auto_crop_plant cv im = Py.Ok im) /\
  (forall e, auto_crop_try cv im = Py.Raise e ->
             auto_crop_plant cv im = Py.Ok im) /\
  (exists out, auto_crop_plant cv im = Py.Ok out).
Proof.
  intros Hcontract. split; [|split].
  - intros Hno. unfold auto_crop_plant, auto_crop_try.
    destruct (green_mask cv im) as [mask|e] eqn:Hmask; simpl; [|reflexivity].
    rewrite (Hcontract mask (green_mask_zero cv im mask Hno Hmask)).
    reflexivity.
  - intros e He. unfold auto_crop_plant. rewrite He. reflexivity.
  - unfold auto_crop_plant.
    destruct (auto_crop_try cv im) as [[cropped|]|e]; eauto.
Qed.

Lemma nonzero_points_row (idx : list Z) (y : Z) (row : list Z) :
  Forall (fun v => v = 0) row ->
  List.concat (map (fun '(x, v) => if v =? 0 then [] else [(x, y)])
                   (combine idx row)) = [].
Proof.
  intros Hrow. revert idx.
  induction Hrow as [|v vs Hv _ IH]; intros [|i idx]; simpl; try reflexivity.
  subst v. simpl. apply IH.
Qed.

Lemma toy_cv_contract : findContours_contract Examples.toy_cv.
Proof.
  intros mask Hmask. simpl. unfold Examples.toy_findContours.
  assert (H0 : Examples.nonzero_points mask = []).
  { unfold Examples.nonzero_points.
    generalize (zrange 0 (Z.of_nat (List.length mask))). intros idy.
    revert idy. induction Hmask as [|row rows Hrow _ IH];
      intros [|y idy]; simpl; try reflexivity.
    rewrite (nonzero_points_row _ y row Hrow). simpl. apply IH. }
  rewrite H0. reflexivity.
Qed.

Lemma auto_crop_plant_fallback_witness :
  findContours_contract Examples.toy_cv /\
  auto_crop_plant Examples.toy_cv Examples.soil = Py.Ok Examples.soil /\
  auto_crop_plant Examples.toy_cv Examples.leaf
  = Py.Ok (mkImage 2 2 [[mkPixel 40 200 30; mkPixel 50 180 40];
                        [mkPixel 45 190 35; mkPixel 90 90 90]]).
Proof.
  split; [exact toy_cv_contract|]. split.
  - apply (proj1 (auto_crop_plant_fallback Examples.toy_cv Examples.soil
                    toy_cv_contract)).
    intros hsv_image H. vm_compute in H. injection H as <-.
    repeat (apply Forall_cons || apply Forall_nil);
      unfold in_green_band; simpl; lia.
  - vm_compute. reflexivity.
Defined.

End CropFacts.

(** ** The processor *)

Section ProcFacts.
Import Img Proc.
Local Open Scope proc_scope.

(** *** Running the monad *)

Lemma bind_ok {A B} (m : M A) (k : A -> M B) (s s' : state) (b : B) :
  bind m k s = (Py.Ok b, s') ->
  exists a s1, m s = (Py.Ok a, s1) /\ k a s1 = (Py.Ok b, s').
Proof.
  unfold bind. destruct (m s) as [[a|e] s1]; [eauto|discriminate].
Qed.

Lemma bind_raise {A B} (m : M A) (k : A -> M B) (s s' : state) (e : Py.exn) :
  m s = (Py.Raise e, s') -> bind m k s = (Py.Raise e, s').
Proof. unfold bind. now intros ->. Qed.

Lemma lift_ok {A} (r : Py.result A) (s s' : state) (a : A) :
  lift r s = (Py.Ok a, s') -> r = Py.Ok a /\ s' = s.
Proof. unfold lift. intros H. injection H as -> ->. now split. Qed.

Lemma ret_ok {A} (a b : A) (s s' : state) :
  ret a s = (Py.Ok b, s') -> b = a /\ s' = s.
Proof. unfold ret. intros H. injection H as -> ->. now split. Qed.

Lemma log_ok (ev : event) (s s' : state) (u : unit) :
  log ev s = (Py.Ok u, s') -> s' = add_trace [ev] s.
Proof. unfold log. intros H. now injection H as _ <-. Qed.

Lemma add_trace_add_trace (a b : list event) (s : state) :
  add_trace b (add_trace a s) = add_trace (a ++ b) s.
Proof. unfold add_trace. simpl. now rewrite app_assoc. Qed.

Lemma add_trace_nil (s : state) : add_trace [] s = s.
Proof. destruct s. unfold add_trace. simpl. now rewrite app_nil_r. Qed.

Ltac bind_inv H a s1 Hm :=
  apply bind_ok in H; destruct H as (a & s1 & Hm & H).

(** *** The stages keep the size *)

Lemma normalize_lighting_size (E : env) (im out : image) :
  size_contract E -> normalize_lighting E im = Py.Ok out -> size out = size im.
Proof.
  intros (Hlab & Hrgb & _). unfold normalize_lighting.
  destruct (cvtColor_RGB2LAB E im) as [lab|e] eqn:H1; simpl; [|discriminate].
  destruct (clahe_apply E _) as [l|e]; simpl; [|discriminate].
  destruct (merge_l l lab) as [merged|e] eqn:H3; simpl; [|discriminate].
  intros H4. rewrite (Hrgb _ _ H4), <- (Hlab _ _ H1).
  unfold merge_l in H3.
  destruct ((plane_width l =? width lab) && (plane_height l =? height lab));
    [|discriminate].
  injection H3 as <-. reflexivity.
Qed.

Lemma reduce_noise_size (E : env) (im out : image) :
  size_contract E -> reduce_noise E im = Py.Ok out -> size out = size im.
Proof.
  intros (_ & _ & _ & _ & Hbil). unfold reduce_noise.
  destruct (bilateralFilter E (swap_rb im) 9 75 75) as [d|e] eqn:H1; simpl;
    [|discriminate].
  intros H. injection H as <-.
  apply (Hbil 9 75 75) in H1. unfold size in *. simpl in *. exact H1.
Qed.

Lemma enhance_quality_ok (E : env) (cfg : config) (im out : image)
    (s s' : state) :
  enhance_quality E cfg im s = (Py.Ok out, s') ->
  s' = add_trace [EvStage EnhanceContrast; EvStage EnhanceSharpness] s /\
  (size_contract E -> size out = size im).
Proof.
  unfold enhance_quality. intros H.
  bind_inv H u1 s1 H1. apply log_ok in H1. subst s1.
  bind_inv H im1 s2 H2. apply lift_ok in H2 as [H2 ->].
  bind_inv H u2 s3 H3. apply log_ok in H3. subst s3.
  apply lift_ok in H as [H ->]. split.
  - now rewrite add_trace_add_trace.
  - intros (_ & _ & Hc & Hs & _).
    rewrite (Hs _ _ _ H). exact (Hc _ _ _ H2).
Qed.

(** *** The pipeline enters its stages in [pipeline_order] *)

Lemma preprocess_pipeline_ok (E : env) (cfg : config) (im out : image)
    (md : option (list (string * string))) (s s' : state) :
  preprocess_pipeline E cfg im md s = (Py.Ok out, s') ->
  s' = add_trace (map EvStage (pipeline_order cfg)) s /\
  (size_contract E -> size out = target_size cfg).
Proof.
  unfold preprocess_pipeline, pipeline_order. intros H.
  bind_inv H im1 s1 H1.
  assert (Hs1 : s1 = add_trace
                  (map EvStage (if auto_crop cfg then [AutoCrop] else [])) s).
  { destruct (auto_crop cfg).
    - bind_inv H1 u0 s0 H0. apply log_ok in H0.
      apply lift_ok in H1 as [_ ->]. exact H0.
    - apply ret_ok in H1 as [_ ->]. simpl. now rewrite add_trace_nil. }
  clear H1.
  bind_inv H u2 s2 H2. apply log_ok in H2.
  bind_inv H im2 s3 H3. apply lift_ok in H3 as [Hresize ->].
  bind_inv H u3 s4 H4. apply log_ok in H4.
  bind_inv H im3 s5 H5. apply lift_ok in H5 as [Hlight ->].
  bind_inv H im4 s6 H6.
  assert (Hs6 : s6 = add_trace
                  (map EvStage (if color_correction cfg
                                then [CorrectColors] else [])) s4
                /\ size im4 = size im3).
  { destruct (color_correction cfg).
    - bind_inv H6 u0 s0 H0. apply log_ok in H0.
      apply ret_ok in H6 as [-> ->]. now split.
    - apply ret_ok in H6 as [-> ->]. simpl. now rewrite add_trace_nil. }
  clear H6. destruct Hs6 as [Hs6 Hsz4].
  bind_inv H im5 s7 H7. apply enhance_quality_ok in H7 as [Hs7 Hsz5].
  bind_inv H im6 s8 H8.
  assert (Hs8 : s8 = add_trace
                  (map EvStage (if noise_reduction cfg
                                then [ReduceNoise] else [])) s7
                /\ (size_contract E -> size im6 = size im5)).
  { destruct (noise_reduction cfg).
    - bind_inv H8 u0 s0 H0. apply log_ok in H0.
      apply lift_ok in H8 as [H8 ->]. split; [exact H0|].
      intros Hc. now apply (reduce_noise_size E).
    - apply ret_ok in H8 as [-> ->]. simpl. now rewrite add_trace_nil. }
  clear H8. destruct Hs8 as [Hs8 Hsz6].
  apply ret_ok in H as [-> ->]. split.
  - subst. rewrite !add_trace_add_trace, !map_app.
    destruct (auto_crop cfg), (color_correction cfg), (noise_reduction cfg);
      reflexivity.
  - intros Hc.
    rewrite (Hsz6 Hc), (Hsz5 Hc), Hsz4,
      (normalize_lighting_size E _ _ Hc Hlight).
    exact (smart_resize_size _ _ _ _ Hresize).
Qed.

(** *** Validation *)

Lemma validate_input_state (E : env) (ip : string) (s s' : state)
    (r : Py.result unit) :
  validate_input E ip s = (r, s') -> s' = s.
Proof.
  unfold validate_input, raise, lift, bind, ret.
  destruct (negb (path_exists E ip)); [now intros [= _ <-]|].
  destruct (negb (Py.str_in _ _)); [now intros [= _ <-]|].
  destruct (path_st_size E ip) as [sz|e]; [|now intros [= _ <-]].
  destruct (max_file_size <? sz); now intros [= _ <-].
Qed.

(** What [process_image] returns when its [try] block raises [e] at once,
    without a step that changes the state. *)
Lemma process_image_early_raise (E : env) (cfg : config) (ip op : string)
    (md : option (list (string * string))) (s : state) (e : Py.exn) :
  validate_input E ip (mkState (stats s) (S (clock s)) (trace s))
  = (Py.Raise e, mkState (stats s) (S (clock s)) (trace s)) ->
  process_image E cfg ip op md s
  = (Py.Ok (Failure (mkFailure (Py.str e) ip
                       (FP.f64 (time E (S (clock s)) - time E (clock s))))),
     mkState (count_error (stats s)) (S (S (clock s))) (trace s)).
Proof.
  intros Hv. unfold process_image, time_time, bind at 1, try_except.
  unfold process_image_try.
  rewrite (bind_raise _ _ _ _ _ Hv). reflexivity.
Qed.

(** C6. Validation runs before any decode. If the path does not exist the
    call fails with the not-found error; if it exists and its extension,
    lower-cased, is outside the allow-list .jpg, .jpeg, .png, .webp, .bmp,
    .tiff it fails with the unsupported-format error; if it exists, has an
    allowed extension and is larger than 20 MiB it fails with the size-limit
    error. In each case the invocation returns a record with success false
    and that message, counts one error, and the trace is unchanged: the
    decoder has not been called. *)
Theorem validation_precedes_decoding (E : env) (cfg : config)
    (ip op : string) (md : option (list (string * string))) (s : state) :
  let s1 := mkState (stats s) (S (clock s)) (trace s) in
  let fails_with c msg :=
    validate_input E ip s1 = (Py.Raise (Py.mkExn c msg), s1) /\
    process_image E cfg ip op md s
    = (Py.Ok (Failure (mkFailure msg ip
                         (FP.f64 (time E (S (clock s)) - time E (clock s))))),
       mkState (count_error (stats s)) (S (S (clock s))) (trace s)) /\
    decoder_calls (trace (snd (process_image E cfg ip op md s)))
    = decoder_calls (trace s) in
  (path_exists E ip = false ->
   fails_with Py.FileNotFoundError ("Input image not found: " ++ ip)%string) /\
  (path_exists E ip = true ->
   Py.str_in (Py.lower (path_suffix E ip)) supported_formats = false ->
   fails_with Py.ValueError
     ("Unsupported image format: " ++ path_suffix E ip)%string) /\
  (path_exists E ip = true ->
   Py.str_in (Py.lower (path_suffix E ip)) supported_formats = true ->
   forall st_size, path_st_size E ip = Py.Ok st_size ->
   max_file_size < st_size ->
   fails_with Py.ValueError "Image file too large (max 20MB)"%string).
Proof.
  intros s1 fails_with.
  assert (Hfw : forall c msg,
             validate_input E ip s1 = (Py.Raise (Py.mkExn c msg), s1) ->
             fails_with c msg).
  { intros c msg Hv. unfold fails_with. split; [exact Hv|].
    pose proof (process_image_early_raise E cfg ip op md s _ Hv) as Hp.
    split; [exact Hp|]. rewrite Hp. reflexivity. }
  split; [|split].
  - intros Hex. apply Hfw. unfold validate_input. rewrite Hex. reflexivity.
  - intros Hex Hfmt. apply Hfw. unfold validate_input.
    rewrite Hex, Hfmt. reflexivity.
  - intros Hex Hfmt sz Hsz Hbig. apply Hfw. unfold validate_input.
    rewrite Hex, Hfmt. simpl. unfold bind, lift. rewrite Hsz.
    apply Z.ltb_lt in Hbig. rewrite Hbig. reflexivity.
Qed.

Lemma validation_precedes_decoding_witness :
  fst (process_image Examples.toy_env default_config
         "field/missing.jpg" "out/a.jpg" None init_state)
  = Py.Ok (Failure (mkFailure "Input image not found: field/missing.jpg"
                      "field/missing.jpg" (1 # 4))) /\
  fst (process_image Examples.toy_env default_config
         "field/notes.gif" "out/a.jpg" None init_state)
  = Py.Ok (Failure (mkFailure "Unsupported image format: .gif"
                      "field/notes.gif" (1 # 4))) /\
  fst (process_image Examples.toy_env default_config
         "field/huge.jpg" "out/a.jpg" None init_state)
  = Py.Ok (Failure (mkFailure "Image file too large (max 20MB)"
                      "field/huge.jpg" (1 # 4))).
Proof.
  split; [|split].
  - destruct (validation_precedes_decoding Examples.toy_env default_config
                "field/missing.jpg" "out/a.jpg" None init_state)
      as (H & _ & _).
    destruct (H eq_refl) as (_ & Hp & _). rewrite Hp. reflexivity.
  - destruct (validation_precedes_decoding Examples.toy_env default_config
                "field/notes.gif" "out/a.jpg" None init_state)
      as (_ & H & _).
    destruct (H eq_refl eq_refl) as (_ & Hp & _). rewrite Hp. reflexivity.
  - destruct (validation_precedes_decoding Examples.toy_env default_config
                "field/huge.jpg" "out/a.jpg" None init_state)
      as (_ & _ & H).
    destruct (H eq_refl eq_refl (20 * 1024 * 1024 + 1) eq_refl eq_refl)
      as (_ & Hp & _).
    rewrite Hp. reflexivity.
Defined.

(** *** The top-level handler *)

Lemma load_image_ok (E : env) (ip : string) (s s' : state) (im : image) :
  load_image E ip s = (Py.Ok im, s') -> s' = add_trace [EvOpen ip] s.
Proof.
  unfold load_image, try_except.
  destruct (load_image_try E ip s) as [[im0|e] s0] eqn:Htry;
    [|unfold raise, lift; discriminate].
  intros H. injection H as _ <-.
  unfold load_image_try in Htry.
  bind_inv Htry u1 s1 H1. apply log_ok in H1. subst s1.
  bind_inv Htry opened s2 H2. apply lift_ok in H2 as [_ ->].
  bind_inv Htry im1 s3 H3.
  assert (s3 = add_trace [EvOpen ip] s) as ->.
  { destruct (negb (fst opened =? "RGB")%string).
    - now apply lift_ok in H3 as [_ ->].
    - now apply ret_ok in H3 as [_ ->]. }
  now apply lift_ok in Htry as [_ ->].
Qed.

Lemma save_image_ok (E : env) (cfg : config) (im : image) (op : string)
    (s s' : state) (u : unit) :
  save_image E cfg im op s = (Py.Ok u, s') -> s' = add_trace [EvSave op] s.
Proof.
  unfold save_image. intros H.
  bind_inv H u1 s1 H1. apply lift_ok in H1 as [_ ->].
  bind_inv H u2 s2 H2. apply log_ok in H2. subst s2.
  now apply lift_ok in H as [_ ->].
Qed.

(** What a returning [try] block has done. *)
Lemma process_image_try_ok (E : env) (cfg : config) (start : Q)
    (ip op : string) (md : option (list (string * string)))
    (s s' : state) (r : processing_result) :
  process_image_try E cfg start ip op md s = (Py.Ok r, s') ->
  exists sr,
    r = Success sr /\
    input_path sr = ip /\
    preprocessing_applied sr = get_applied_preprocessing cfg /\
    trace s' = (trace s ++ EvOpen ip :: map EvStage (pipeline_order cfg)
                        ++ [EvSave op])%list /\
    stats s' = update_statistics (processing_time sr) (stats s) /\
    (size_contract E -> processed_size sr = target_size cfg).
Proof.
  unfold process_image_try. intros H.
  bind_inv H u1 s1 H1. apply validate_input_state in H1. subst s1.
  bind_inv H im s2 H2. apply load_image_ok in H2. subst s2.
  bind_inv H pim s3 H3. apply preprocess_pipeline_ok in H3 as [-> Hsize].
  bind_inv H u4 s4 H4. apply save_image_ok in H4. subst s4.
  bind_inv H now s5 H5. unfold time_time in H5. injection H5 as <- <-.
  bind_inv H u6 s6 H6. unfold modify_stats in H6. injection H6 as _ <-.
  bind_inv H fsb s7 H7. apply lift_ok in H7 as [_ ->].
  bind_inv H fsa s8 H8. apply lift_ok in H8 as [_ ->].
  bind_inv H q s9 H9. apply lift_ok in H9 as [_ ->].
  bind_inv H stamp s10 H10. unfold time_time in H10. injection H10 as <- <-.
  apply ret_ok in H as [-> ->].
  eexists. split; [reflexivity|]. simpl.
  split; [reflexivity|]. split; [reflexivity|].
  split; [|split; [reflexivity|exact Hsize]].
  rewrite <- !app_assoc. reflexivity.
Qed.

(** The [try] block returns success records only. *)
Lemma process_image_try_success (E : env) (cfg : config) (start : Q)
    (ip op : string) (md : option (list (string * string)))
    (s s' : state) (r : processing_result) :
  process_image_try E cfg start ip op md s = (Py.Ok r, s') ->
  success r = true.
Proof.
  intros H. apply process_image_try_ok in H as (sr & -> & _). reflexivity.
Qed.

(** [process_image] is its [try] block, or the handler's record. *)
Lemma process_image_cases (E : env) (cfg : config)
    (ip op : string) (md : option (list (string * string))) (s : state) :
  match process_image_try E cfg (time E (clock s)) ip op md
          (mkState (stats s) (S (clock s)) (trace s)) with
  | (Py.Ok r, s2) => process_image E cfg ip op md s = (Py.Ok r, s2)
  | (Py.Raise e, s2) =>
      process_image E cfg ip op md s
      = (Py.Ok (Failure (mkFailure (Py.str e) ip
                           (FP.f64 (time E (clock s2) - time E (clock s))))),
         mkState (count_error (stats s2)) (S (clock s2)) (trace s2))
  end.
Proof.
  assert (Hrun : process_image E cfg ip op md s
                 = try_except
                     (process_image_try E cfg (time E (clock s)) ip op md)
                     (process_image_except E (time E (clock s)) ip)
                     (mkState (stats s) (S (clock s)) (trace s)))
    by reflexivity.
  unfold try_except in Hrun.
  destruct (process_image_try E cfg (time E (clock s)) ip op md _)
    as [[r|e] s2]; exact Hrun.
Qed.

(** A successful invocation, taken apart. *)
Lemma process_image_success (E : env) (cfg : config)
    (ip op : string) (md : option (list (string * string)))
    (s s' : state) (sr : success_result) :
  process_image E cfg ip op md s = (Py.Ok (Success sr), s') ->
  preprocessing_applied sr = get_applied_preprocessing cfg /\
  trace s' = (trace s ++ EvOpen ip :: map EvStage (pipeline_order cfg)
                      ++ [EvSave op])%list /\
  stats s' = update_statistics (processing_time sr) (stats s) /\
  (size_contract E -> processed_size sr = target_size cfg).
Proof.
  intros H. pose proof (process_image_cases E cfg ip op md s) as Hc.
  destruct (process_image_try E cfg (time E (clock s)) ip op md _)
    as [[r|e] s2] eqn:Htry.
  - rewrite H in Hc. injection Hc as <- <-.
    apply process_image_try_ok in Htry
      as (sr' & [= <-] & _ & Happ & Htr & Hst & Hsz).
    simpl in Htr, Hst. auto.
  - rewrite H in Hc. discriminate.
Qed.

(** C4. [process_image] never propagates an exception: whatever the paths,
    the metadata, the state and the behaviour of the libraries, it returns
    a result record. When the [try] block raises [e], at whatever step,
    the record has success false, the error string [str(e)], the input
    path and the time elapsed from the start to the handler's reading of
    the clock; when the block returns, its record is returned and has
    success true. *)
Theorem process_image_never_raises (E : env) (cfg : config)
    (ip op : string) (md : option (list (string * string))) (s : state) :
  let start := time E (clock s) in
  let s1 := mkState (stats s) (S (clock s)) (trace s) in
  (exists r s', process_image E cfg ip op md s = (Py.Ok r, s')) /\
  match process_image_try E cfg start ip op md s1 with
  | (Py.Ok r, s2) =>
      process_image E cfg ip op md s = (Py.Ok r, s2) /\ success r = true
  | (Py.Raise e, s2) =>
      process_image E cfg ip op md s
      = (Py.Ok (Failure (mkFailure (Py.str e) ip
                           (FP.f64 (time E (clock s2) - start)))),
         mkState (count_error (stats s2)) (S (clock s2)) (trace s2))
  end.
Proof.
  intros start s1.
  pose proof (process_image_cases E cfg ip op md s) as Hc.
  fold start s1 in Hc.
  destruct (process_image_try E cfg start ip op md s1) as [[r|e] s2] eqn:Htry.
  - split; [eauto|]. split; [exact Hc|].
    exact (process_image_try_success _ _ _ _ _ _ _ _ _ Htry).
  - split; [eauto|exact Hc].
Qed.

(** *** The reported steps *)

(** C10. The list of applied steps always holds the literal name
    [resize_to_512x512]: it is there for every configuration, the list does
    not depend on the configured target size, and so every successful
    invocation reports it, whatever size it resized to. *)
Theorem resize_step_name_is_fixed (E : env) (cfg : config) :
  In "resize_to_512x512"%string (get_applied_preprocessing cfg) /\
  (forall ts, get_applied_preprocessing (with_target_size ts cfg)
              = get_applied_preprocessing cfg) /\
  (forall ts ip op md s,
      match process_image E (with_target_size ts cfg) ip op md s with
      | (Py.Ok (Success r), _) =>
          In "resize_to_512x512"%string (preprocessing_applied r)
      | (Py.Ok (Failure _), _) => True
      | (Py.Raise _, _) => False
      end).
Proof.
  assert (Hin : forall c, In "resize_to_512x512"%string
                             (get_applied_preprocessing c)).
  { intros c. unfold get_applied_preprocessing.
    destruct (auto_crop c), (color_correction c), (noise_reduction c);
      simpl; auto. }
  split; [apply Hin|]. split; [reflexivity|].
  intros ts ip op md s.
  pose proof (process_image_cases E (with_target_size ts cfg) ip op md s)
    as Hc.
  destruct (process_image_try E (with_target_size ts cfg) _ ip op md _)
    as [[r|e] s2] eqn:Htry.
  - rewrite Hc.
    apply process_image_try_ok in Htry as (sr & -> & _ & Happ & _).
    rewrite Happ. apply Hin.
  - rewrite Hc. exact I.
Qed.

Lemma stages_of_app (a b : list event) :
  stages_of (a ++ b) = stages_of a ++ stages_of b.
Proof.
  induction a as [|[path|st|path] a IH]; simpl; [reflexivity| | |];
    now rewrite IH.
Qed.

Lemma stages_of_stages (l : list stage) : stages_of (map EvStage l) = l.
Proof. induction l as [|st l IH]; simpl; [reflexivity|now rewrite IH]. Qed.

Lemma get_applied_preprocessing_report (cfg : config) :
  get_applied_preprocessing cfg = map stage_name (report_order cfg).
Proof.
  unfold get_applied_preprocessing, report_order.
  destruct (auto_crop cfg), (color_correction cfg), (noise_reduction cfg);
    reflexivity.
Qed.

Lemma report_order_permutation (cfg : config) :
  Permutation (report_order cfg) (pipeline_order cfg).
Proof.
  assert (Hrot : forall (a b c : stage) l,
             Permutation (a :: b :: c :: l) (c :: a :: b :: l)).
  { intros a b c l. apply perm_trans with (a :: c :: b :: l).
    - apply perm_skip, perm_swap.
    - apply perm_swap. }
  unfold report_order, pipeline_order.
  destruct (auto_crop cfg), (color_correction cfg), (noise_reduction cfg);
    simpl; repeat apply perm_skip; try apply Hrot; apply Permutation_refl.
Qed.

(** C2, as the code has it. On every successful invocation the stages the
    pipeline entered are, in this order, auto-crop (if enabled), resize,
    lighting normalization, colour correction (if enabled), contrast,
    sharpness, noise reduction (if enabled); [preprocessing_applied] holds
    the names of exactly these stages, each once, in the fixed order of
    [_get_applied_preprocessing]: auto-crop (if enabled), resize, lighting
    normalization, contrast, sharpness, colour correction (if enabled),
    noise reduction (if enabled). The two orders agree when colour
    correction is disabled. Under the default configuration the list is the
    seven names below, which has the six names of the claim in the claimed
    relative order. *)
Theorem applied_steps_reported (E : env) (cfg : config)
    (ip op : string) (md : option (list (string * string)))
    (s s' : state) (sr : success_result) :
  process_image E cfg ip op md s = (Py.Ok (Success sr), s') ->
  stages_of (trace s') = (stages_of (trace s) ++ pipeline_order cfg)%list /\
  preprocessing_applied sr = map stage_name (report_order cfg) /\
  Permutation (preprocessing_applied sr)
              (map stage_name (pipeline_order cfg)) /\
  (color_correction cfg = false ->
   preprocessing_applied sr = map stage_name (pipeline_order cfg)) /\
  get_applied_preprocessing default_config
  = ["auto_crop_plant_focus"; "resize_to_512x512"; "lighting_normalization";
     "contrast_enhancement"; "sharpness_enhancement"; "color_correction";
     "noise_reduction"]%string.
Proof.
  intros H. apply process_image_success in H as (Happ & Htr & _ & _).
  rewrite Happ, Htr, get_applied_preprocessing_report.
  split; [|split; [|split; [|split]]].
  - rewrite stages_of_app. simpl. rewrite stages_of_app, stages_of_stages.
    simpl. now rewrite app_nil_r.
  - reflexivity.
  - apply Permutation_map, report_order_permutation.
  - intros Hcc. unfold report_order, pipeline_order. rewrite Hcc.
    destruct (auto_crop cfg), (noise_reduction cfg); reflexivity.
  - reflexivity.
Qed.

Lemma applied_steps_reported_witness :
  exists sr s',
    process_image Examples.toy_env Examples.small_config
      "field/leaf.JPG" "out/leaf.jpg" None init_state
    = (Py.Ok (Success sr), s') /\
    stages_of (trace s')
    = [AutoCrop; SmartResize; NormalizeLighting; CorrectColors;
       EnhanceContrast; EnhanceSharpness; ReduceNoise] /\
    preprocessing_applied sr
    = ["auto_crop_plant_focus"; "resize_to_512x512"; "lighting_normalization";
       "contrast_enhancement"; "sharpness_enhancement"; "color_correction";
       "noise_reduction"]%string.
Proof.
  destruct (process_image Examples.toy_env Examples.small_config
              "field/leaf.JPG" "out/leaf.jpg" None init_state)
    as [[[sr|f]|e] s'] eqn:Hrun; try (vm_compute in Hrun; discriminate Hrun).
  exists sr, s'. split; [reflexivity|].
  destruct (applied_steps_reported _ _ _ _ _ _ _ _ Hrun)
    as (Hst & Hrep & _).
  split; [exact Hst|exact Hrep].
Defined.

(** C2 as stated fails under the default configuration: the run below
    succeeds, the pipeline enters colour correction before contrast and
    sharpness, and [preprocessing_applied] lists it after them. *)
Lemma reported_order_is_not_execution_order :
  match process_image Examples.toy_env default_config
          "field/leaf.JPG" "out/leaf.jpg" None init_state with
  | (Py.Ok (Success sr), s') =>
      map stage_name (stages_of (trace s'))
      = ["auto_crop_plant_focus"; "resize_to_512x512";
         "lighting_normalization"; "color_correction";
         "contrast_enhancement"; "sharpness_enhancement";
         "noise_reduction"]%string /\
      preprocessing_applied sr
      = ["auto_crop_plant_focus"; "resize_to_512x512";
         "lighting_normalization"; "contrast_enhancement";
         "sharpness_enhancement"; "color_correction";
         "noise_reduction"]%string /\
      preprocessing_applied sr <> map stage_name (stages_of (trace s'))
  | _ => False
  end.
Proof.
  lazy. split; [reflexivity|]. split; [reflexivity|]. discriminate.
Qed.

(** *** The size of the processed image *)

Lemma toy_env_size_contract : size_contract Examples.toy_env.
Proof.
  unfold size_contract, preserves_size. simpl.
  repeat split; intros; match goal with
                        | H : Py.Ok _ = Py.Ok _ |- _ => now injection H as <-
                        end.
Qed.

(** C1. The buffer [_smart_resize] returns has exactly the configured
    target width and height, whatever the aspect ratio of the input and
    whatever the truncated scaled size handed to [resize] was (the centre
    crop restores the target size); for an input of positive size and a
    positive target, every dimension below [2^53], it does return one; and,
    the library filters keeping the size of their input, the processed
    image whose size a successful result record reports has the target
    size too. *)
Theorem output_has_target_size (E : env) (cfg : config) :
  (forall im out,
      Resize.smart_resize (lanczos E) (target_size cfg) im = Py.Ok out ->
      width out = fst (target_size cfg) /\
      height out = snd (target_size cfg)) /\
  (forall im,
      0 < width im -> 0 < height im < 2 ^ 53 ->
      0 < fst (target_size cfg) < 2 ^ 53 ->
      0 < snd (target_size cfg) < 2 ^ 53 ->
      exists out,
        Resize.smart_resize (lanczos E) (target_size cfg) im = Py.Ok out) /\
  (size_contract E ->
   forall ip op md s s' sr,
     process_image E cfg ip op md s = (Py.Ok (Success sr), s') ->
     processed_size sr = target_size cfg).
Proof.
  split; [|split].
  - intros im out H. apply smart_resize_size in H.
    unfold size in H. rewrite <- H. now split.
  - intros im Hw Hh Htw Hth. destruct (target_size cfg) as [tw th].
    now apply smart_resize_returns.
  - intros Hc ip op md s s' sr H.
    apply process_image_success in H as (_ & _ & _ & Hsz). now apply Hsz.
Qed.

Lemma output_has_target_size_witness :
  size_contract Examples.toy_env /\
  (exists out,
      Resize.smart_resize Examples.nearest (3, 2) Examples.leaf = Py.Ok out /\
      width out = 3 /\ height out = 2) /\
  (exists out,
      Resize.smart_resize Examples.nearest (3, 2) Examples.soil = Py.Ok out /\
      width out = 3 /\ height out = 2) /\
  (Resize.scaled_size (512, 512) Examples.green_field = Py.Ok (682, 512) /\
   exists out,
     Resize.smart_resize Examples.nearest (512, 512) Examples.green_field
     = Py.Ok out /\
     width out = 512 /\ height out = 512) /\
  (exists sr s',
      process_image Examples.toy_env Examples.small_config
        "field/soil.png" "out/soil.png" None init_state
      = (Py.Ok (Success sr), s') /\
      processed_size sr = (3, 2)).
Proof.
  pose proof (output_has_target_size Examples.toy_env Examples.small_config)
    as (Hresize & _ & Hrun).
  pose proof (output_has_target_size Examples.toy_env default_config)
    as (Hresize512 & Hreturns512 & _).
  split; [exact toy_env_size_contract|]. split; [|split; [|split]].
  - destruct (Resize.smart_resize Examples.nearest (3, 2) Examples.leaf)
      as [out|e] eqn:H; [|vm_compute in H; discriminate H].
    exists out. split; [reflexivity|]. exact (Hresize _ _ H).
  - destruct (Resize.smart_resize Examples.nearest (3, 2) Examples.soil)
      as [out|e] eqn:H; [|vm_compute in H; discriminate H].
    exists out. split; [reflexivity|]. exact (Hresize _ _ H).
  - split; [lazy; reflexivity|].
    destruct (Hreturns512 Examples.green_field) as [out H].
    { change (0 < 1024). lia. }
    { change (0 < 768 < 2 ^ 53). lia. }
    { change (0 < 512 < 2 ^ 53). lia. }
    { change (0 < 512 < 2 ^ 53). lia. }
    exists out. split; [exact H|]. exact (Hresize512 _ _ H).
  - destruct (process_image Examples.toy_env Examples.small_config
                "field/soil.png" "out/soil.png" None init_state)
      as [[[sr|f]|e] s'] eqn:H; try (vm_compute in H; discriminate H).
    exists sr, s'. split; [reflexivity|].
    exact (Hrun toy_env_size_contract _ _ _ _ _ _ H).
Defined.

(** *** The running statistics *)

(** C9, at a failing invocation. The input file is gone when the result
    record asks for its size: the statistics were updated two statements
    earlier, and the handler counts an error on top. One invocation,
    returning success false, leaves [processed_count = 1],
    [error_count = 1] and a changed [avg_processing_time], where the
    property asks for a failure to leave [processed_count] and the average
    alone and for the two counters to add up to the number of
    invocations. *)
Lemma failure_after_statistics_update :
  process_image Examples.vanishing_env Examples.small_config
    "field/leaf.JPG" "out/leaf.jpg" None init_state
  = (Py.Ok (Failure
              (mkFailure "[Errno 2] No such file or directory: field/leaf.JPG"
                         "field/leaf.JPG" (1 # 2))),
     mkState (mkStats 1 1 (1 # 4)) 3
       [EvOpen "field/leaf.JPG"; EvStage AutoCrop; EvStage SmartResize;
        EvStage NormalizeLighting; EvStage CorrectColors;
        EvStage EnhanceContrast; EvStage EnhanceSharpness;
        EvStage ReduceNoise; EvSave "out/leaf.jpg"]).
Proof. vm_compute. reflexivity. Qed.

(** *** Which methods touch the statistics *)

Lemma keeps_ret {A} (a : A) : keeps_stats (ret a).
Proof. intros s r s' [= _ <-]. reflexivity. Qed.

Lemma keeps_lift {A} (r : Py.result A) : keeps_stats (lift r).
Proof. intros s r0 s' [= _ <-]. reflexivity. Qed.

Lemma keeps_raise {A} (c : Py.exn_class) (msg : string) :
  keeps_stats (@raise A c msg).
Proof. apply keeps_lift. Qed.

Lemma keeps_log (ev : event) : keeps_stats (log ev).
Proof. intros s r s' [= _ <-]. reflexivity. Qed.

Lemma keeps_time (E : env) : keeps_stats (time_time E).
Proof. intros s r s' [= _ <-]. reflexivity. Qed.

Lemma keeps_bind {A B} (m : M A) (k : A -> M B) :
  keeps_stats m -> (forall a, keeps_stats (k a)) -> keeps_stats (bind m k).
Proof.
  intros Hm Hk s r s'. unfold bind.
  destruct (m s) as [[a|e] s1] eqn:H1.
  - intros H2. rewrite (Hk a _ _ _ H2). exact (Hm _ _ _ H1).
  - intros [= _ <-]. exact (Hm _ _ _ H1).
Qed.

Lemma keeps_try_except {A} (body : M A) (handler : Py.exn -> M A) :
  keeps_stats body -> (forall e, keeps_stats (handler e)) ->
  keeps_stats (try_except body handler).
Proof.
  intros Hb Hh s r s'. unfold try_except.
  destruct (body s) as [[a|e] s1] eqn:H1.
  - intros [= _ <-]. exact (Hb _ _ _ H1).
  - intros H2. rewrite (Hh e _ _ _ H2). exact (Hb _ _ _ H1).
Qed.

Lemma keeps_if {A} (b : bool) (m1 m2 : M A) :
  keeps_stats m1 -> keeps_stats m2 -> keeps_stats (if b then m1 else m2).
Proof. now destruct b. Qed.

Create HintDb keeps.
#[local] Hint Resolve keeps_ret keeps_lift keeps_raise keeps_log keeps_time
  keeps_try_except keeps_if : keeps.
#[local] Hint Extern 2 (keeps_stats (bind _ _)) =>
  apply keeps_bind; [|intros ?] : keeps.

Lemma keeps_validate_input (E : env) (ip : string) :
  keeps_stats (validate_input E ip).
Proof. unfold validate_input. auto 10 with keeps. Qed.

Lemma keeps_load_image (E : env) (ip : string) :
  keeps_stats (load_image E ip).
Proof. unfold load_image, load_image_try. auto 10 with keeps. Qed.

Lemma keeps_preprocess_pipeline (E : env) (cfg : config) (im : image)
    (md : option (list (string * string))) :
  keeps_stats (preprocess_pipeline E cfg im md).
Proof. unfold preprocess_pipeline, enhance_quality. auto 20 with keeps. Qed.

Lemma keeps_save_image (E : env) (cfg : config) (im : image) (op : string) :
  keeps_stats (save_image E cfg im op).
Proof. unfold save_image. auto 10 with keeps. Qed.

Lemma bind_cases {A B} (m : M A) (k : A -> M B) (s s' : state)
    (r : Py.result B) :
  bind m k s = (r, s') ->
  (exists e, m s = (Py.Raise e, s') /\ r = Py.Raise e) \/
  (exists a s1, m s = (Py.Ok a, s1) /\ k a s1 = (r, s')).
Proof.
  unfold bind. destruct (m s) as [[a|e] s1].
  - intros H. right. eauto.
  - intros [= <- <-]. left. eauto.
Qed.

(** The statistics when the [try] block ends: untouched if it raised
    before the update; updated if it returned, or if it raised while the
    result record was built. *)
Lemma process_image_try_stats (E : env) (cfg : config) (start : Q)
    (ip op : string) (md : option (list (string * string)))
    (s s' : state) (r : Py.result processing_result) :
  process_image_try E cfg start ip op md s = (r, s') ->
  (stats s' = stats s /\ exists e, r = Py.Raise e) \/
  (exists pt,
      stats s' = update_statistics pt (stats s) /\
      match r with
      | Py.Ok (Success sr) => pt = processing_time sr
      | Py.Ok (Failure _) => False
      | Py.Raise e =>
          getsize E ip = Py.Raise e \/ getsize E op = Py.Raise e \/
          exists im, calculate_quality_metrics E im = Py.Raise e
      end).
Proof.
  unfold process_image_try. intros H.
  apply bind_cases in H. destruct H as [(e & H & ->)|(u1 & s1 & H1 & H)].
  { left. split; [|eauto]. exact (keeps_validate_input _ _ _ _ _ H). }
  apply keeps_validate_input in H1.
  apply bind_cases in H. destruct H as [(e & H & ->)|(im & s2 & H2 & H)].
  { left. split; [|eauto]. rewrite <- H1. exact (keeps_load_image _ _ _ _ _ H). }
  apply keeps_load_image in H2.
  apply bind_cases in H. destruct H as [(e & H & ->)|(pim & s3 & H3 & H)].
  { left. split; [|eauto]. rewrite <- H1, <- H2.
    exact (keeps_preprocess_pipeline _ _ _ _ _ _ _ H). }
  apply keeps_preprocess_pipeline in H3.
  apply bind_cases in H. destruct H as [(e & H & ->)|(u4 & s4 & H4 & H)].
  { left. split; [|eauto]. rewrite <- H1, <- H2, <- H3.
    exact (keeps_save_image _ _ _ _ _ _ _ H). }
  apply keeps_save_image in H4.
  assert (Hs4 : stats s4 = stats s) by congruence.
  clear H1 H2 H3 H4.
  apply bind_cases in H. destruct H as [(e & H & _)|(now & s5 & H5 & H)];
    [discriminate H|].
  unfold time_time in H5. injection H5 as <- <-.
  apply bind_cases in H. destruct H as [(e & H & _)|(u6 & s6 & H6 & H)];
    [discriminate H|].
  unfold modify_stats in H6. injection H6 as _ <-. simpl in H.
  right. exists (FP.f64 (time E (clock s4) - start)).
  apply bind_cases in H. destruct H as [(e & H & ->)|(fsb & s7 & H7 & H)].
  { unfold lift in H. injection H as H <-. simpl. rewrite Hs4. auto. }
  unfold lift in H7. injection H7 as H7 <-.
  apply bind_cases in H. destruct H as [(e & H & ->)|(fsa & s8 & H8 & H)].
  { unfold lift in H. injection H as H <-. simpl. rewrite Hs4. auto. }
  unfold lift in H8. injection H8 as H8 <-.
  apply bind_cases in H. destruct H as [(e & H & ->)|(q & s9 & H9 & H)].
  { unfold lift in H. injection H as H <-. simpl. rewrite Hs4. eauto. }
  unfold lift in H9. injection H9 as H9 <-.
  apply bind_cases in H. destruct H as [(e & H & _)|(stamp & s10 & H10 & H)];
    [discriminate H|].
  unfold time_time in H10. injection H10 as <- <-.
  unfold ret in H. injection H as <- <-. simpl. rewrite Hs4. auto.
Qed.

(** The statistics after one invocation. *)
Lemma process_image_stats (E : env) (cfg : config)
    (ip op : string) (md : option (list (string * string))) (s : state) :
  match process_image E cfg ip op md s with
  | (Py.Ok (Success sr), s') =>
      stats s' = update_statistics (processing_time sr) (stats s)
  | (Py.Ok (Failure _), s') =>
      stats s' = count_error (stats s) \/
      (exists pt e,
          stats s' = count_error (update_statistics pt (stats s)) /\
          (getsize E ip = Py.Raise e \/ getsize E op = Py.Raise e \/
           exists im, calculate_quality_metrics E im = Py.Raise e))
  | (Py.Raise _, _) => False
  end.
Proof.
  pose proof (process_image_cases E cfg ip op md s) as Hc.
  destruct (process_image_try E cfg (time E (clock s)) ip op md _)
    as [r s2] eqn:Htry.
  apply process_image_try_stats in Htry. simpl in Htry.
  destruct r as [[sr|f]|e]; rewrite Hc.
  - destruct Htry as [[_ [e He]]|(pt & Hst & ->)]; [discriminate He|exact Hst].
  - destruct Htry as [[_ [e He]]|(pt & _ & [])]. discriminate He.
  - simpl. destruct Htry as [[Hst _]|(pt & Hst & Hlate)].
    + left. now rewrite Hst.
    + right. exists pt, e. rewrite Hst. auto.
Qed.

(** X1. Every failure path counts one error: whatever step of the [try]
    block raised, an invocation that returns success false has increased
    [error_count] by exactly one; an invocation that returns success true
    has increased [processed_count] by exactly one and left [error_count]
    alone. *)
Theorem error_counted_on_every_failure (E : env) (cfg : config)
    (ip op : string) (md : option (list (string * string))) (s : state) :
  match process_image E cfg ip op md s with
  | (Py.Ok (Success sr), s') =>
      error_count (stats s') = error_count (stats s) /\
      processed_count (stats s') = processed_count (stats s) + 1
  | (Py.Ok (Failure _), s') =>
      error_count (stats s') = error_count (stats s) + 1
  | (Py.Raise _, _) => False
  end.
Proof.
  pose proof (process_image_stats E cfg ip op md s) as H.
  destruct (process_image E cfg ip op md s) as [[[sr|f]|e] s'].
  - rewrite H. simpl. now split.
  - destruct H as [->|(pt & e & -> & _)]; reflexivity.
  - exact H.
Qed.

Lemma process_image_stats_builds (E : env) (cfg : config)
    (ip op : string) (md : option (list (string * string))) (s : state) :
  record_builds E ip op ->
  match process_image E cfg ip op md s with
  | (Py.Ok (Success sr), s') =>
      stats s' = update_statistics (processing_time sr) (stats s)
  | (Py.Ok (Failure _), s') => stats s' = count_error (stats s)
  | (Py.Raise _, _) => False
  end.
Proof.
  intros (Hin & Hout & Hq).
  pose proof (process_image_stats E cfg ip op md s) as H.
  destruct (process_image E cfg ip op md s) as [[[sr|f]|e] s']; try exact H.
  destruct H as [H|(pt & e & _ & [He|[He|[im He]]])]; [exact H| | |].
  - destruct Hin as [n Hn]. congruence.
  - destruct Hout as [n Hn]. congruence.
  - destruct (Hq im) as [q Hq']. congruence.
Qed.

(** X2. When building the result record cannot raise, a failing
    invocation leaves [processed_count] and [avg_processing_time] as they
    were and adds one to [error_count]. *)
Theorem early_failure_keeps_processed_count (E : env) (cfg : config)
    (ip op : string) (md : option (list (string * string)))
    (s s' : state) (f : failure_result) :
  record_builds E ip op ->
  process_image E cfg ip op md s = (Py.Ok (Failure f), s') ->
  stats s' = count_error (stats s).
Proof.
  intros Hb Hrun.
  pose proof (process_image_stats_builds E cfg ip op md s Hb) as H.
  now rewrite Hrun in H.
Qed.

Lemma toy_record_builds (ip op : string) :
  (exists n, Examples.toy_stat ip = Py.Ok n) ->
  record_builds Examples.toy_env ip op.
Proof.
  intros [n Hn]. unfold record_builds. simpl. rewrite Hn.
  split; [eauto|]. split.
  - destruct (Examples.toy_stat op); eauto.
  - intros im. unfold calculate_quality_metrics. simpl. eauto.
Qed.

Lemma early_failure_keeps_processed_count_witness :
  record_builds Examples.toy_env "field/huge.jpg" "out/a.jpg" /\
  stats (snd (process_image Examples.toy_env default_config
                "field/huge.jpg" "out/a.jpg" None init_state))
  = mkStats 0 1 0.
Proof.
  assert (Hb : record_builds Examples.toy_env "field/huge.jpg" "out/a.jpg")
    by (apply toy_record_builds; vm_compute; eauto).
  split; [exact Hb|].
  destruct (process_image Examples.toy_env default_config
              "field/huge.jpg" "out/a.jpg" None init_state)
    as [[[sr|f]|e] s'] eqn:Hrun; try (lazy in Hrun; discriminate Hrun).
  simpl.
  rewrite (early_failure_keeps_processed_count _ _ _ _ _ _ _ _ Hb Hrun).
  reflexivity.
Defined.

(** X3. When building the result record never raises, every invocation
    of a sequence is counted once: as processed or as an error. *)
Theorem run_all_counts_each_once (E : env) (cfg : config)
    (reqs : list request) (s : state) :
  Forall (fun r => record_builds E (req_input r) (req_output r)) reqs ->
  processed_count (stats (run_all E cfg reqs s))
  + error_count (stats (run_all E cfg reqs s))
  = processed_count (stats s) + error_count (stats s)
    + Z.of_nat (List.length reqs).
Proof.
  intros Hall. revert s.
  induction Hall as [|r reqs Hr _ IH]; intros s; [simpl; lia|].
  simpl run_all. rewrite IH.
  pose proof (process_image_stats_builds E cfg (req_input r) (req_output r)
                (req_metadata r) s Hr) as H.
  destruct (process_image E cfg (req_input r) (req_output r)
              (req_metadata r) s) as [[[sr|f]|e] s']; [| |contradiction];
    cbn [snd]; rewrite H; cbn [List.length processed_count error_count
                                update_statistics count_error]; lia.
Qed.

Lemma run_all_counts_each_once_witness :
  let reqs := [mkRequest "field/leaf.JPG" "out/leaf.jpg" None;
               mkRequest "field/huge.jpg" "out/huge.jpg" None;
               mkRequest "field/soil.png" "out/soil.png" None] in
  Forall (fun r => record_builds Examples.toy_env (req_input r) (req_output r))
         reqs /\
  processed_count
    (stats (run_all Examples.toy_env Examples.small_config reqs init_state))
  + error_count
      (stats (run_all Examples.toy_env Examples.small_config reqs init_state))
  = 3.
Proof.
  intros reqs.
  assert (Hall : Forall (fun r => record_builds Examples.toy_env
                                    (req_input r) (req_output r)) reqs).
  { unfold reqs.
    repeat (apply Forall_cons || apply Forall_nil);
      apply toy_record_builds; vm_compute; eauto. }
  split; [exact Hall|].
  rewrite (run_all_counts_each_once Examples.toy_env Examples.small_config
             reqs init_state Hall).
  reflexivity.
Defined.

(** *** Switching stages off *)


(** *** No threshold *)

(** X5. The configured [brightness_threshold] is never consulted: no
    image is rejected for its metrics, and two configurations that differ only in
    the threshold give the same result and the same state for every
    invocation. *)
Theorem brightness_threshold_is_not_consulted (E : env) (cfg : config)
    (t : Q) (ip op : string) (md : option (list (string * string)))
    (s : state) :
  process_image E (with_brightness_threshold t cfg) ip op md s
  = process_image E cfg ip op md s.
Proof. destruct cfg. reflexivity. Qed.

End ProcFacts.
